(** * Image Converter & Cutter: a shallow embedding of [main.py]

    The development follows [ImageProcessor] (the worker that transforms and
    encodes every file of a batch) and the part of [ImageConverterApp] that
    gathers the settings and starts the worker.  Python integers are [Z],
    Python floats are the kernel's binary64 floats, the settings dictionary
    is a finite map from key strings to values, exceptions are an error
    monad, and what Pillow and the operating system do (resampling, text
    rendering, the codecs, the disk) is an interface the model is
    parametrised by. *)

From Stdlib Require Import ZArith List String Ascii Lia Floats.
From Stdlib.Strings Require Import Byte.
From stdpp Require Import base option gmap strings pretty.
Import ListNotations.

Local Open Scope string_scope.
Local Open Scope list_scope.
Local Open Scope Z_scope.

(** ** Exceptions *)

(** A Python exception: its class and the text [str(e)] gives. *)
Record exn := Exn { exn_class : string; exn_message : string }.

Inductive Result (A : Type) : Type :=
| Ok (a : A)
| Raise (e : exn).
Arguments Ok {A} a.
Arguments Raise {A} e.

#[global] Instance Result_ret : MRet Result := fun _ a => Ok a.
#[global] Instance Result_bind : MBind Result := fun _ _ f m =>
  match m with
  | Ok a => f a
  | Raise e => Raise e
  end.
#[global] Instance Result_fmap : FMap Result := fun _ _ f m =>
  match m with
  | Ok a => Ok (f a)
  | Raise e => Raise e
  end.

(** ** Python values *)

(** What a settings entry holds: the widgets give booleans, integers and
    strings. *)
Inductive value :=
| VBool (b : bool)
| VInt (z : Z)
| VStr (s : string).

(** [bool(v)], the test of [if v] and [not v]. *)
Definition truthy (v : value) : bool :=
  match v with
  | VBool b => b
  | VInt z => negb (z =? 0)
  | VStr s => negb (String.eqb s "")
  end.

(** [a == b]: a string never equals a number, and [True == 1]. *)
Definition py_eq (a b : value) : bool :=
  match a, b with
  | VStr s, VStr t => String.eqb s t
  | VStr _, _ | _, VStr _ => false
  | VBool x, VBool y => Bool.eqb x y
  | VBool x, VInt z | VInt z, VBool x => Z.b2z x =? z
  | VInt x, VInt y => x =? y
  end.

Definition TypeError (msg : string) : exn := Exn "TypeError" msg.
Definition ValueError (msg : string) : exn := Exn "ValueError" msg.

(** A value used as a number ([bool] is a subclass of [int]). *)
Definition as_int (v : value) : Result Z :=
  match v with
  | VInt z => Ok z
  | VBool b => Ok (Z.b2z b)
  | VStr _ => Raise (TypeError "unsupported operand type(s): 'str'")
  end.

(** A value used where only a string has the method or meaning. *)
Definition as_str (v : value) : Result string :=
  match v with
  | VStr s => Ok s
  | VInt _ => Raise (Exn "AttributeError" "'int' object has no attribute")
  | VBool _ => Raise (Exn "AttributeError" "'bool' object has no attribute")
  end.

(** [f"{v}"]. *)
Definition format_value (v : value) : string :=
  match v with
  | VStr s => s
  | VInt z => pretty z
  | VBool true => "True"
  | VBool false => "False"
  end.

(** [settings.get(key, default)]. *)
Definition get (settings : gmap string value) (key : string)
    (default : value) : value :=
  match settings !! key with
  | Some v => v
  | None => default
  end.

(** [settings[key]]. *)
Definition getitem (settings : gmap string value) (key : string)
    : Result value :=
  match settings !! key with
  | Some v => Ok v
  | None => Raise (Exn "KeyError" key)
  end.

(** [lst[i]] with Python's negative indices. *)
Definition list_getitem {A : Type} (lst : list A) (i : Z) : Result A :=
  let n := Z.of_nat (length lst) in
  let j := if i <? 0 then i + n else i in
  if (j <? 0) || (n <=? j) then
    Raise (Exn "IndexError" "list index out of range")
  else
    match nth_error lst (Z.to_nat j) with
    | Some a => Ok a
    | None => Raise (Exn "IndexError" "list index out of range")
    end.

(** [str.lower] on the ASCII letters; other bytes are kept. *)
Definition lower_ascii (c : ascii) : ascii :=
  let n := nat_of_ascii c in
  if (65 <=? n)%nat && (n <=? 90)%nat then ascii_of_nat (n + 32) else c.

Fixpoint lower (s : string) : string :=
  match s with
  | EmptyString => EmptyString
  | String c s' => String (lower_ascii c) (lower s')
  end.

(** ** Python floats *)

(** [float(n)], rounded to nearest even; beyond the range Python raises
    [OverflowError]. *)
Definition float_of_int (z : Z) : Result float :=
  let f := SF2Prim (binary_normalize prec emax z 0 false) in
  if PrimFloat.is_infinity f then
    Raise (Exn "OverflowError" "int too large to convert to float")
  else Ok f.

(** [int(x)]: truncation towards zero. *)
Definition int_of_float (x : float) : Result Z :=
  match Prim2SF x with
  | S754_zero _ => Ok 0
  | S754_finite s m e =>
      let a := if 0 <=? e then Z.pos m * 2 ^ e
               else Z.pos m `div` 2 ^ (- e) in
      Ok (if s then - a else a)
  | S754_infinity _ =>
      Raise (Exn "OverflowError" "cannot convert float infinity to integer")
  | S754_nan => Raise (ValueError "cannot convert float NaN to integer")
  end.

(** [a / b] on integers.  Python rounds the exact quotient once; below
    [2^53] both operands convert exactly and this is the binary64
    division of the two. *)
Definition truediv (a b : Z) : Result float :=
  if b =? 0 then Raise (Exn "ZeroDivisionError" "division by zero")
  else
    x ← float_of_int a;
    y ← float_of_int b;
    mret (x / y)%float.

(** [n * x] and [x * n] for an integer [n] and a float [x]. *)
Definition mul_int_float (n : Z) (x : float) : Result float :=
  y ← float_of_int n;
  mret (y * x)%float.

(** ** Images *)

(** A pixel is the tuple of its band values: three for RGB, four for RGBA,
    one for L and P. *)
Definition Pixel : Type := list Z.

(** [Image.Image]: the mode string, [size = (width, height)] and the pixel
    rows, top row first. *)
Record Image := mkImage {
  mode : string;
  width : Z;
  height : Z;
  rows : list (list Pixel)
}.

Definition size (img : Image) : Z * Z := (width img, height img).

(** The keyword arguments [Image.save] is called with, per format. *)
Inductive save_params :=
| WEBP (quality : Z) (method : Z)
| JPEG (quality : Z) (optimize : bool)
| PNG (optimize : bool).

(** What the program asks of Pillow. *)
Class Pillow := {
  (** [img.save(fp, FORMAT, ...)]: the bytes written, or the exception. *)
  save : Image -> save_params -> Result (list byte);
  (** [Image.open(path)] on the bytes of a file. *)
  decode : list byte -> Result Image;
  (** [img.resize((w, h), LANCZOS)]: the resampled rows. *)
  resample : Image -> Z -> Z -> list (list Pixel);
  (** [img.thumbnail((w, h), LANCZOS)]. *)
  thumbnail : Image -> Z -> Z -> Image;
  (** [img.convert(mode)]. *)
  convert : Image -> string -> Image;
  (** [background.paste(img, mask=...)]: [None] is no mask, [Some m] the
      mask band. *)
  paste : Image -> Image -> option Image -> Image;
  (** [img.split()[-1]]. *)
  last_band : Image -> Image;
  (** [draw.textbbox((0, 0), text, font=font)] for the font of a size. *)
  textbbox : string -> Z -> Z * Z * Z * Z;
  (** [draw.text((x, y), text, font=font, fill=(255, 255, 255, opacity))]
      on a transparent RGBA layer of the given size. *)
  draw_text : Z * Z -> Z * Z -> string -> Z -> Z -> Image;
  (** [Image.alpha_composite(im1, im2)]. *)
  alpha_composite : Image -> Image -> Image
}.

(** The number of bands of a mode. *)
Definition bands (m : string) : nat :=
  if String.eqb m "RGB" then 3
  else if String.eqb m "RGBA" then 4
  else if String.eqb m "CMYK" then 4
  else if String.eqb m "LA" then 2
  else if String.eqb m "YCbCr" then 3
  else if String.eqb m "LAB" then 3
  else if String.eqb m "HSV" then 3
  else 1.

(** [Image.new(mode, size, color)]. *)
Definition Image_new (m : string) (sz : Z * Z) (color : Pixel) : Image :=
  mkImage m sz.1 sz.2
    (replicate (Z.to_nat sz.2) (replicate (Z.to_nat sz.1) color)).

(** The pixel at column [x] of row [y]; outside the image a crop reads
    zeros. *)
Definition getpixel (img : Image) (x y : Z) : Pixel :=
  if (0 <=? x) && (0 <=? y) then
    match rows img !! Z.to_nat y with
    | Some r =>
        match r !! Z.to_nat x with
        | Some p => p
        | None => replicate (bands (mode img)) 0
        end
    | None => replicate (bands (mode img)) 0
    end
  else replicate (bands (mode img)) 0.

(** [img.crop((x0, upper, x1, lower))], the box being (left, upper, right,
    lower): the region of [x1 - x0] columns and [lower - upper] rows. *)
Definition crop (img : Image) (box : Z * Z * Z * Z) : Result Image :=
  let '(x0, upper, x1, lower) := box in
  if x1 <? x0 then
    Raise (ValueError "Coordinate 'right' is less than 'left'")
  else if lower <? upper then
    Raise (ValueError "Coordinate 'lower' is less than 'upper'")
  else
    Ok (mkImage (mode img) (x1 - x0) (lower - upper)
          (map (fun y => map (fun x => getpixel img x y)
                           (seqZ x0 (x1 - x0)))
               (seqZ upper (lower - upper)))).

(** An image whose rows agree with its size. *)
Definition wf_image (img : Image) : Prop :=
  height img = Z.of_nat (length (rows img)) /\
  0 <= width img /\
  Forall (fun r => Z.of_nat (length r) = width img) (rows img).

(** The top image above the bottom one, and the left image beside the
    right one. *)
Definition stack_rows (top bottom : Image) : Image :=
  mkImage (mode top) (width top) (height top + height bottom)
    (rows top ++ rows bottom).

Definition join_columns (lhs rhs : Image) : Image :=
  mkImage (mode lhs) (width lhs + width rhs) (height lhs)
    (zip_with app (rows lhs) (rows rhs)).

(** ** The worker's state *)

(** What the program asks of the operating system and of [pathlib]. *)
Class OS := {
  (** [os.path.join(a, b)]. *)
  path_join : string -> string -> string;
  (** [Path(p).stem]. *)
  stem : string -> string;
  (** [str(Path(p).parent)]. *)
  parent : string -> string;
  (** The error, if any, that opening a path for writing answers on a
      disk. *)
  write_error : gmap string (list byte) -> string -> option exn
}.

(** The summary dictionary of [stats_update]; [percentage] is a float, or
    the integer [0] when nothing was read. *)
Inductive number :=
| Int (z : Z)
| Float (x : float).

Record stats := Stats {
  total_files : Z;
  original_size : Z;
  new_size : Z;
  savings : Z;
  percentage : number
}.

(** The signals of [ImageProcessor]. *)
Inductive signal :=
| progress (percent : Z)
| finished (message : string)
| error (message : string)
| stats_update (summary : stats).

(** The mutable part of a run: the files on disk, the two counters of the
    worker, and the signals emitted so far, oldest first. *)
Record state := mkState {
  disk : gmap string (list byte);
  total_original_size : Z;
  total_new_size : Z;
  emitted : list signal
}.

(** A computation of the worker: it changes the state and returns or
    raises; the state it reached when it raised is kept. *)
Definition M (A : Type) : Type := state -> Result A * state.

#[global] Instance M_ret : MRet M := fun _ a st => (Ok a, st).
#[global] Instance M_bind : MBind M := fun _ _ f m st =>
  match m st with
  | (Ok a, st') => f a st'
  | (Raise e, st') => (Raise e, st')
  end.

(** A computation that only returns or raises. *)
Definition lift {A : Type} (r : Result A) : M A := fun st => (r, st).

Definition emit (s : signal) : M unit := fun st =>
  (Ok (),
   mkState (disk st) (total_original_size st) (total_new_size st)
     (emitted st ++ [s])).

(** A computation that emits no signal. *)
Definition silent {A : Type} (m : M A) : Prop :=
  forall st, emitted (m st).2 = emitted st.

(** [os.path.getsize(path)]. *)
Definition getsize (path : string) : M Z := fun st =>
  match disk st !! path with
  | Some b => (Ok (Z.of_nat (length b)), st)
  | None => (Raise (Exn "FileNotFoundError" path), st)
  end.

(** [os.path.exists(path)]. *)
Definition exists_ (path : string) : M bool := fun st =>
  (Ok (bool_decide (is_Some (disk st !! path))), st).

Definition add_original_size (n : Z) : M unit := fun st =>
  (Ok (),
   mkState (disk st) (total_original_size st + n) (total_new_size st)
     (emitted st)).

Definition add_new_size (n : Z) : M unit := fun st =>
  (Ok (),
   mkState (disk st) (total_original_size st) (total_new_size st + n)
     (emitted st)).

(** ** The quality search ([find_quality_for_target_size]) *)

Definition is_webp (output_format : string) : bool :=
  String.eqb output_format "webp".

Definition is_jpeg (output_format : string) : bool :=
  String.eqb output_format "jpg" || String.eqb output_format "jpeg".

(** One pass through the loop body is logged as the bounds it started
    from and the quality it encoded at. *)
Record probe := Probe { probe_low : Z; probe_high : Z; probe_quality : Z }.

Section QualitySearch.
Context `{Pillow}.

(** The test save to a [BytesIO] and [buffer.tell()]: [None] when the
    format takes neither branch. *)
Definition trial_encode (img : Image) (output_format : string) (mid : Z)
  : option (Result Z) :=
  if is_webp output_format then
    Some (b ← save img (WEBP mid 6); mret (Z.of_nat (length b)))
  else if is_jpeg output_format then
    Some (b ← save img (JPEG mid true); mret (Z.of_nat (length b)))
  else None.

(** [for _ in range(n)] from the state [low], [high], [best_quality];
    [log] is the probes made so far, oldest first. *)
Fixpoint search_loop (n : nat) (img : Image) (output_format : string)
    (target_size_bytes : Z) (low high best_quality : Z) (log : list probe)
  : Result Z * list probe :=
  match n with
  | O => (Ok best_quality, log)
  | S n' =>
      let mid := (low + high) `div` 2 in
      match trial_encode img output_format mid with
      | None => (Ok mid, log)
      | Some (Raise e) => (Raise e, log ++ [Probe low high mid])
      | Some (Ok sz) =>
          if sz <=? target_size_bytes then
            search_loop n' img output_format target_size_bytes
              (mid + 1) high mid (log ++ [Probe low high mid])
          else
            search_loop n' img output_format target_size_bytes
              low (mid - 1) best_quality (log ++ [Probe low high mid])
      end
  end.

Definition quality_search (img : Image) (output_format : string)
    (target_size_bytes : Z) : Result Z * list probe :=
  search_loop 10 img output_format target_size_bytes 1 100 85 [].

Definition find_quality_for_target_size (img : Image)
    (output_format : string) (target_size_bytes : Z) : Result Z :=
  fst (quality_search img output_format target_size_bytes).

(** The probe encodes of a search, in order. *)
Definition probes (img : Image) (output_format : string)
    (target_size_bytes : Z) : list probe :=
  snd (quality_search img output_format target_size_bytes).

End QualitySearch.

(** The invariant of the loop for sizes [sz] and a target: everything
    below [low] fits and [best] is the last of them, nothing above [high]
    fits, and some quality [q0] that fits is still at or below [high]. *)
Definition search_inv (sz : Z -> Z) (target q0 low high best : Z) : Prop :=
  1 <= low /\ low <= high + 1 /\ high <= 100 /\
  1 <= q0 <= high /\ sz q0 <= target /\
  (low = 1 \/ (sz (low - 1) <= target /\ best = low - 1)) /\
  (high = 100 \/ target < sz (high + 1)).

(** ** The transform engine *)

Section TransformEngine.
Context `{Pillow}.

(** [img.resize((w, h), Image.Resampling.LANCZOS)]: the same size is a
    copy, an empty size is refused. *)
Definition resize (img : Image) (w h : Z) : Result Image :=
  if (w =? width img) && (h =? height img) then Ok img
  else if (w <? 1) || (h <? 1) then
    Raise (ValueError "height and width must be > 0")
  else Ok (mkImage (mode img) w h (resample img w h)).

(** [int(dim * ratio)]. *)
Definition scaled (dim : Z) (ratio : float) : Result Z :=
  x ← mul_int_float dim ratio;
  int_of_float x.

Definition resize_image (img : Image) (settings : gmap string value)
  : Result Image :=
  let resize_mode := get settings "resize_mode" (VStr "width") in
  let maintain_aspect := get settings "maintain_aspect" (VBool true) in
  if py_eq resize_mode (VStr "preset") then
    target_width ← as_int (get settings "preset_width" (VInt 1920));
    target_height ←
      (if truthy maintain_aspect then
         ratio ← truediv target_width (width img);
         scaled (height img) ratio
       else mret (height img));
    resize img target_width target_height
  else if py_eq resize_mode (VStr "custom") then
    target_width ← as_int (get settings "custom_width" (VInt (width img)));
    target_height ←
      as_int (get settings "custom_height" (VInt (height img)));
    if truthy maintain_aspect then
      mret (thumbnail img target_width target_height)
    else resize img target_width target_height
  else if py_eq resize_mode (VStr "percentage") then
    pct ← as_int (get settings "scale_percentage" (VInt 100));
    scale ← truediv pct 100;
    new_width ← scaled (width img) scale;
    new_height ← scaled (height img) scale;
    resize img new_width new_height
  else mret img.

(** The anchor of the text for a position name; [margin = 20]. *)
Definition watermark_anchor (img : Image) (position : value)
    (text_width text_height : Z) : Z * Z :=
  let margin := 20 in
  if py_eq position (VStr "top-left") then (margin, margin)
  else if py_eq position (VStr "top-right") then
    (width img - text_width - margin, margin)
  else if py_eq position (VStr "bottom-left") then
    (margin, height img - text_height - margin)
  else if py_eq position (VStr "bottom-right") then
    (width img - text_width - margin, height img - text_height - margin)
  else
    ((width img - text_width) `div` 2, (height img - text_height) `div` 2).

Definition add_watermark (img : Image) (settings : gmap string value)
  : Result Image :=
  let watermark_text := get settings "watermark_text" (VStr "") in
  if negb (truthy watermark_text) then mret img
  else
    text ← as_str watermark_text;
    font_size ← as_int (get settings "watermark_size" (VInt 36));
    let '(x0, y0, x1, y1) := textbbox text font_size in
    let text_width := x1 - x0 in
    let text_height := y1 - y0 in
    let position := get settings "watermark_position" (VStr "bottom-right") in
    let xy := watermark_anchor img position text_width text_height in
    opacity ← as_int (get settings "watermark_opacity" (VInt 128));
    let watermark := draw_text (size img) xy text font_size opacity in
    let img_copy := convert img "RGBA" in
    let img_copy := alpha_composite img_copy watermark in
    mret (convert img_copy "RGB").

(** The colour-mode step of [process_image]: alpha and palette images are
    pasted on a white background, other modes are converted. *)
Definition normalize_mode (img : Image) : Image :=
  if String.eqb (mode img) "RGBA" || String.eqb (mode img) "LA"
     || String.eqb (mode img) "P" then
    let background := Image_new "RGB" (size img) [255; 255; 255] in
    let img := if String.eqb (mode img) "P" then convert img "RGBA"
               else img in
    paste background img
      (if String.eqb (mode img) "RGBA" || String.eqb (mode img) "LA"
       then Some (last_band img) else None)
  else if negb (String.eqb (mode img) "RGB") then convert img "RGB"
  else img.

(** The cutting step of [process_image]: the images to save, each with
    the ending its file name gets. *)
Definition cut_image (img : Image) (cut_mode : value)
  : Result (list (string * Image)) :=
  if py_eq cut_mode (VStr "none") then mret [("", img)]
  else
    let '(width, height) := size img in
    if py_eq cut_mode (VStr "horizontal") then
      let half_height := height `div` 2 in
      top_half ← crop img (0, 0, width, half_height);
      bottom_half ← crop img (0, half_height, width, height);
      mret [("_top", top_half); ("_bottom", bottom_half)]
    else if py_eq cut_mode (VStr "vertical") then
      let half_width := width `div` 2 in
      left_half ← crop img (0, 0, half_width, height);
      right_half ← crop img (half_width, 0, width, height);
      mret [("_left", left_half); ("_right", right_half)]
    else mret [].

End TransformEngine.

(** ** The encoder and the batch coordinator *)

Section Worker.
Context `{Pillow} `{OS}.

(** [Image.open(file_path)]. *)
Definition Image_open (file_path : string) : M Image := fun st =>
  match disk st !! file_path with
  | Some b => (decode b, st)
  | None => (Raise (Exn "FileNotFoundError" file_path), st)
  end.

(** [img.save(output_path, FORMAT, ...)]: the file is opened, then the
    image is encoded into it. *)
Definition save_to (img : Image) (output_path : string)
    (params : save_params) : M unit := fun st =>
  match write_error (disk st) output_path with
  | Some e => (Raise e, st)
  | None =>
      match save img params with
      | Raise e => (Raise e, st)
      | Ok b =>
          (Ok (),
           mkState (<[output_path := b]> (disk st))
             (total_original_size st) (total_new_size st) (emitted st))
      end
  end.

Definition save_image (img : Image) (output_path : string)
    (settings : gmap string value) : M unit :=
  output_format ←
    lift (lower <$> as_str (get settings "output_format" (VStr "webp")));
  let quality := get settings "quality" (VInt 85) in
  let target_size_kb := get settings "target_size_kb" (VInt 0) in
  kb ← lift (as_int target_size_kb);
  quality ←
    (if 0 <? kb then
       q ← lift (find_quality_for_target_size img output_format (kb * 1024));
       mret (VInt q)
     else mret quality);
  (if is_webp output_format then
     q ← lift (as_int quality);
     save_to img output_path (WEBP q 6)
   else if is_jpeg output_format then
     q ← lift (as_int quality);
     save_to img output_path (JPEG q true)
   else if String.eqb output_format "png" then
     save_to img output_path (PNG true)
   else mret ());;
  present ← exists_ output_path;
  if present : bool then
    n ← getsize output_path;
    add_new_size n
  else (mret () : M unit).

(** [for (ending, img) in outputs: save_image(img, path, settings)]. *)
Fixpoint save_all (output_dir base_name output_format : string)
    (settings : gmap string value) (outputs : list (string * Image))
  : M unit :=
  match outputs with
  | [] => mret ()
  | (ending, img) :: rest =>
      save_image img
        (path_join output_dir
           (base_name +:+ ending +:+ "." +:+ output_format))
        settings;;
      save_all output_dir base_name output_format settings rest
  end.

Definition process_image (output_dir : string)
    (settings : gmap string value) (file_path : string) : M unit :=
  original_size ← getsize file_path;
  add_original_size original_size;;
  img ← Image_open file_path;
  (* [img.copy()] of the metadata step is the same image value *)
  img ← lift (if truthy (get settings "resize_enabled" (VBool false))
              then resize_image img settings else mret img);
  let img := normalize_mode img in
  img ← lift (if truthy (get settings "watermark_enabled" (VBool false))
              then add_watermark img settings else mret img);
  let base_name := stem file_path in
  output_format ←
    lift (lower <$> as_str (get settings "output_format" (VStr "webp")));
  let prefix := get settings "filename_prefix" (VStr "") in
  let suffix := get settings "filename_suffix" (VStr "") in
  let base_name :=
    format_value prefix +:+ base_name +:+ format_value suffix in
  let cut_mode := get settings "cut_mode" (VStr "none") in
  outputs ← lift (cut_image img cut_mode);
  save_all output_dir base_name output_format settings outputs.

(** [int((idx + 1) / total * 100)]. *)
Definition progress_percent (idx total : Z) : Result Z :=
  x ← truediv (idx + 1) total;
  y ← float_of_int 100;
  int_of_float (x * y)%float.

(** The loop of [run] from index [idx] on. *)
Fixpoint process_files (output_dir : string)
    (settings : gmap string value) (total idx : Z) (files : list string)
  : M unit :=
  match files with
  | [] => mret ()
  | file_path :: rest =>
      process_image output_dir settings file_path;;
      pct ← lift (progress_percent idx total);
      emit (progress pct);;
      process_files output_dir settings total (idx + 1) rest
  end.

(** The summary of [run]. *)
Definition final_stats (total : Z) : M stats := fun st =>
  let original := total_original_size st in
  let new := total_new_size st in
  let pct :=
    if 0 <? original then
      x ← truediv (original - new) original;
      y ← float_of_int 100;
      mret (Float (x * y)%float)
    else mret (Int 0) in
  (s ← pct; mret (Stats total original new (original - new) s), st).

(** The body of the [try] of [run]. *)
Definition run_body (files : list string) (output_dir : string)
    (settings : gmap string value) : M unit :=
  let total := Z.of_nat (length files) in
  process_files output_dir settings total 0 files;;
  summary ← final_stats total;
  emit (stats_update summary);;
  emit (finished ("Successfully processed " +:+ pretty total
                  +:+ " image(s)")).

(** [ImageProcessor.run]: any exception of the body ends the run with
    one [error] signal. *)
Definition run (files : list string) (output_dir : string)
    (settings : gmap string value) (st : state) : state :=
  match run_body files output_dir settings st with
  | (Ok _, st') => st'
  | (Raise e, st') => (emit (error ("Error: " +:+ exn_message e)) st').2
  end.

End Worker.

(** ** The application window: settings and start of the worker *)

(** The state of the widgets [get_settings] reads. *)
Record Widgets := mkWidgets {
  quality_slider : Z;
  radio_horizontal : bool;
  radio_vertical : bool;
  format_jpg : bool;
  format_png : bool;
  prefix_input : string;
  suffix_input : string;
  strip_metadata : bool;
  target_size_check : bool;
  target_size_spinbox : Z;
  resize_enabled : bool;
  maintain_aspect : bool;
  resize_preset : bool;
  preset_combo : Z;
  resize_custom : bool;
  custom_width : Z;
  custom_height : Z;
  scale_percentage : Z;
  watermark_enabled : bool;
  watermark_text : string;
  watermark_position : string;
  watermark_size : Z;
  watermark_opacity : Z
}.

Record App := mkApp {
  selected_files : list string;
  output_directory : string;
  ui : Widgets
}.

(** What [process_images] does to the outside: a warning box, the creation
    of the output folder, the start of the worker thread.  The labels and
    the enabling of the buttons are not modelled. *)
Inductive action :=
| warning (title text : string)
| makedirs (path : string)
| start (files : list string) (output_dir : string)
    (settings : gmap string value).

Definition get_cut_mode (w : Widgets) : string :=
  if radio_horizontal w then "horizontal"
  else if radio_vertical w then "vertical"
  else "none".

Definition get_output_format (w : Widgets) : string :=
  if format_jpg w then "jpg"
  else if format_png w then "png"
  else "webp".

Definition get_settings (w : Widgets) : Result (gmap string value) :=
  let settings : gmap string value :=
    <["strip_metadata" := VBool (strip_metadata w)]>
      (<["filename_suffix" := VStr (suffix_input w)]>
         (<["filename_prefix" := VStr (prefix_input w)]>
            (<["output_format" := VStr (get_output_format w)]>
               (<["cut_mode" := VStr (get_cut_mode w)]>
                  (<["quality" := VInt (quality_slider w)]> ∅))))) in
  let settings :=
    if target_size_check w then
      <["target_size_kb" := VInt (target_size_spinbox w)]> settings
    else <["target_size_kb" := VInt 0]> settings in
  let settings :=
    <["resize_enabled" := VBool (resize_enabled w)]> settings in
  settings ←
    (if resize_enabled w then
       let settings :=
         <["maintain_aspect" := VBool (maintain_aspect w)]> settings in
       if resize_preset w then
         let settings := <["resize_mode" := VStr "preset"]> settings in
         let preset_values := [1920; 1200; 800; 400] in
         v ← list_getitem preset_values (preset_combo w);
         mret (<["preset_width" := VInt v]> settings)
       else if resize_custom w then
         mret (<["custom_height" := VInt (custom_height w)]>
                 (<["custom_width" := VInt (custom_width w)]>
                    (<["resize_mode" := VStr "custom"]> settings)))
       else
         mret (<["scale_percentage" := VInt (scale_percentage w)]>
                 (<["resize_mode" := VStr "percentage"]> settings))
     else mret settings);
  let settings :=
    <["watermark_enabled" := VBool (watermark_enabled w)]> settings in
  mret
    (if watermark_enabled w then
       <["watermark_opacity" := VInt (watermark_opacity w)]>
         (<["watermark_size" := VInt (watermark_size w)]>
            (<["watermark_position" := VStr (watermark_position w)]>
               (<["watermark_text" := VStr (watermark_text w)]> settings)))
     else settings).

Section Window.
Context `{OS}.

(** [ImageConverterApp.process_images]: the window afterwards and what
    was done. *)
Definition process_images (app : App) : Result (App * list action) :=
  match selected_files app with
  | [] => mret (app, [warning "No Images" "Please add images first!"])
  | first_file :: _ =>
      settings ← get_settings (ui app);
      enabled ← getitem settings "watermark_enabled";
      missing ←
        (if truthy enabled then
           text ← getitem settings "watermark_text";
           mret (negb (truthy text))
         else mret false);
      if missing : bool then
        mret (app,
              [warning "Watermark Text Required"
                 "Please enter watermark text or disable watermark!"])
      else
        let '(app, made) :=
          if String.eqb (output_directory app) "" then
            let first_file_dir := parent first_file in
            let dir := path_join first_file_dir "processed images" in
            (mkApp (selected_files app) dir (ui app), [makedirs dir])
          else (app, []) in
        mret (app,
              made ++ [start (selected_files app) (output_directory app)
                         settings])
  end.

End Window.

(** ** Sample environments

    Small instances of the two interfaces, on which the definitions above
    evaluate. *)

(** A codec that writes [sz q] bytes at quality [q] and one byte per pixel
    as PNG, and reads a file of [n > 0] bytes as a row of [n] pixels. *)
Definition sized_codec (sz : Z -> Z) : Pillow := {|
  save img params :=
    match params with
    | WEBP q _ | JPEG q _ => Ok (replicate (Z.to_nat (sz q)) x00)
    | PNG _ => Ok (replicate (Z.to_nat (width img * height img)) x00)
    end;
  decode b :=
    match b with
    | [] => Raise (Exn "UnidentifiedImageError" "cannot identify image file")
    | _ =>
        Ok (mkImage "RGB" (Z.of_nat (length b)) 1
              [map (fun c => [Z.of_N (Byte.to_N c); 0; 0]) b])
    end;
  resample img w h :=
    replicate (Z.to_nat h) (replicate (Z.to_nat w) [0; 0; 0]);
  thumbnail img w h := img;
  convert img m := mkImage m (width img) (height img) (rows img);
  paste background img mask := background;
  last_band img := img;
  textbbox text font_size :=
    (0, 0, Z.of_nat (String.length text) * font_size, font_size);
  draw_text sz xy text font_size opacity := Image_new "RGBA" sz [0; 0; 0; 0];
  alpha_composite im1 im2 := im1
|}.

(** The codec [sized_codec sz], but one whose WebP and JPEG encoder refuses
    the qualities of [refused]. *)
Definition refusing_codec (refused : Z -> bool) (sz : Z -> Z) : Pillow := {|
  save img params :=
    match params with
    | WEBP q _ | JPEG q _ =>
        if refused q then Raise (Exn "OSError" "encoder error -2")
        else Ok (replicate (Z.to_nat (sz q)) x00)
    | PNG _ => Ok (replicate (Z.to_nat (width img * height img)) x00)
    end;
  decode := @decode (sized_codec sz);
  resample := @resample (sized_codec sz);
  thumbnail := @thumbnail (sized_codec sz);
  convert := @convert (sized_codec sz);
  paste := @paste (sized_codec sz);
  last_band := @last_band (sized_codec sz);
  textbbox := @textbbox (sized_codec sz);
  draw_text := @draw_text (sized_codec sz);
  alpha_composite := @alpha_composite (sized_codec sz)
|}.

(** A file system with [/] between folder and name on which the paths of
    [denied] cannot be written. *)
Definition plain_os (denied : list string) : OS := {|
  path_join a b := a +:+ "/" +:+ b;
  stem p := p;
  parent p := ".";
  write_error d p :=
    if bool_decide (p ∈ denied) then
      Some (Exn "OSError" "[Errno 28] No space left on device")
    else None
|}.

(** A grey image of [w] columns and [h] rows whose pixel at [(x, y)] is
    [x + 10 * y]. *)
Definition ramp (w h : Z) : Image :=
  mkImage "L" w h
    (map (fun y => map (fun x => [x + 10 * y]) (seqZ 0 w)) (seqZ 0 h)).

(** The settings of a fresh window with a format chosen: quality 85, no
    target size, no cutting, no resizing, no watermark. *)
Definition plain_settings (output_format : string) : gmap string value :=
  <["watermark_enabled" := VBool false]>
    (<["resize_enabled" := VBool false]>
       (<["target_size_kb" := VInt 0]>
          (<["strip_metadata" := VBool true]>
             (<["filename_suffix" := VStr ""]>
                (<["filename_prefix" := VStr ""]>
                   (<["output_format" := VStr output_format]>
                      (<["cut_mode" := VStr "none"]>
                         (<["quality" := VInt 85]> ∅)))))))).

(** The widgets as the window sets them up, with the watermark box and
    its text given. *)
Definition fresh_widgets (watermark : bool) (text : string) : Widgets := {|
  quality_slider := 85;
  radio_horizontal := false;
  radio_vertical := false;
  format_jpg := false;
  format_png := false;
  prefix_input := "";
  suffix_input := "";
  strip_metadata := true;
  target_size_check := false;
  target_size_spinbox := 500;
  resize_enabled := false;
  maintain_aspect := true;
  resize_preset := true;
  preset_combo := 0;
  resize_custom := false;
  custom_width := 1920;
  custom_height := 1080;
  scale_percentage := 100;
  watermark_enabled := watermark;
  watermark_text := text;
  watermark_position := "bottom-right";
  watermark_size := 36;
  watermark_opacity := 128
|}.

(** A disk with two small files and a worker that has not started. *)
Definition two_files : state :=
  mkState (<["a.png" := [x01]]> (<["b.png" := [x02; x03]]> ∅)) 0 0 [].

(** ** The height of a preset resize in the words of the specification *)

(** [round(height * target_width / width)]: the exact quotient rounded to
    the nearest integer, a tie to the even one. *)
Definition spec_preset_height (height target_width width : Z) : Z :=
  let n := height * target_width in
  let q := n `div` width in
  let r := n `mod` width in
  if 2 * r <? width then q
  else if width <? 2 * r then q + 1
  else if Z.even q then q else q + 1.

(** ** What a computation of the worker leaves alone *)

(** A computation that writes no file outside the paths of [P]. *)
Definition writes_only {A : Type} (P : string -> Prop) (m : M A) : Prop :=
  forall st p, ~ P p -> disk (m st).2 !! p = disk st !! p.

(** A computation that leaves the counter of the original sizes as it is. *)
Definition keeps_original_size {A : Type} (m : M A) : Prop :=
  forall st, total_original_size (m st).2 = total_original_size st.

(** A computation that never lowers the counter of the new sizes. *)
Definition grows_new_size {A : Type} (m : M A) : Prop :=
  forall st, total_new_size st <= total_new_size (m st).2.

(** A computation that removes no file: a path on the disk before is on
    the disk after. *)
Definition keeps_files {A : Type} (m : M A) : Prop :=
  forall st p, is_Some (disk st !! p) -> is_Some (disk (m st).2 !! p).

(** ** The file list of the window *)

(** The extensions [dropEvent] lets in. *)
Definition image_extensions : list string :=
  [".png"; ".jpg"; ".jpeg"; ".bmp"; ".gif"; ".tiff"; ".webp"].

(** The loop of [add_files] over the files of the dialog: [selected_files]
    afterwards. *)
Fixpoint add_files (selected_files files : list string) : list string :=
  match files with
  | [] => selected_files
  | file :: rest =>
      if bool_decide (file ∈ selected_files) then
        add_files selected_files rest
      else add_files (selected_files ++ [file]) rest
  end.

(** The loop of [dropEvent] over the dropped files, [suffix] being
    [Path(file).suffix]: [selected_files] afterwards. *)
Fixpoint dropEvent (suffix : string -> string)
    (selected_files files : list string) : list string :=
  match files with
  | [] => selected_files
  | file :: rest =>
      if bool_decide (lower (suffix file) ∈ image_extensions)
         && negb (bool_decide (file ∈ selected_files)) then
        dropEvent suffix (selected_files ++ [file]) rest
      else dropEvent suffix selected_files rest
  end.

(** The text of the output path label in [choose_output_directory] and
    [process_images]: [directory if len(directory) < 50 else
    "..." + directory[-47:]]. *)
Definition display_path (directory : string) : string :=
  if (String.length directory <? 50)%nat then directory
  else "..." +:+ substring (String.length directory - 47) 47 directory.

(** * Properties *)

(** ** The quality search *)

Section QualitySearchFacts.
Context `{Pillow}.
Variables (img : Image) (output_format : string) (target : Z).

(** The log only grows at its end. *)
Lemma search_loop_log n low high best log :
  search_loop n img output_format target low high best log =
  ((search_loop n img output_format target low high best []).1,
   log ++ (search_loop n img output_format target low high best []).2).
Proof.
  revert low high best log.
  induction n as [|n IH]; intros low high best log; simpl.
  - by rewrite app_nil_r.
  - destruct (trial_encode img output_format ((low + high) `div` 2))
      as [[sz|e]|]; simpl.
    + destruct (sz <=? target).
      * rewrite (IH _ _ _ (log ++ _)), (IH _ _ _ [_]).
        simpl. by rewrite <- app_assoc.
      * rewrite (IH _ _ _ (log ++ _)), (IH _ _ _ [_]).
        simpl. by rewrite <- app_assoc.
    + done.
    + by rewrite app_nil_r.
Qed.

(** Every pass of the loop makes at most one probe. *)
Lemma search_loop_length n low high best log :
  (length (search_loop n img output_format target low high best log).2
   <= length log + n)%nat.
Proof.
  revert low high best log.
  induction n as [|n IH]; intros low high best log; simpl.
  - lia.
  - destruct (trial_encode img output_format ((low + high) `div` 2))
      as [[sz|e]|]; simpl.
    + destruct (sz <=? target);
        (etrans; [apply IH|]); rewrite length_app; simpl; lia.
    + rewrite length_app; simpl; lia.
    + lia.
Qed.

Lemma search_loop_length_nil n low high best :
  (length (search_loop n img output_format target low high best []).2
   <= n)%nat.
Proof.
  pose proof (search_loop_length n low high best []) as Hlen.
  by rewrite Nat.add_0_l in Hlen.
Qed.

Section Encodable.
(** The encoder answers a size at every quality the search asks for. *)
Variable sz : Z -> Z.
Hypothesis encodes :
  forall q, trial_encode img output_format q = Some (Ok (sz q)).

Lemma search_loop_length_exact n low high best log :
  length (search_loop n img output_format target low high best log).2
  = (length log + n)%nat.
Proof.
  revert low high best log.
  induction n as [|n IH]; intros low high best log; simpl.
  - lia.
  - rewrite encodes.
    destruct (sz _ <=? target); rewrite IH, length_app; simpl; lia.
Qed.

Lemma search_loop_length_nil_exact n low high best :
  length (search_loop n img output_format target low high best []).2 = n.
Proof.
  by rewrite search_loop_length_exact.
Qed.

(** The two ways through one pass. *)
Lemma search_loop_over n low high best log mid :
  (low + high) `div` 2 = mid ->
  target < sz mid ->
  search_loop (S n) img output_format target low high best log
  = search_loop n img output_format target low (mid - 1) best
      (log ++ [Probe low high mid]).
Proof.
  intros <- Hgt. simpl. rewrite encodes.
  by destruct (Z.leb_spec (sz ((low + high) `div` 2)) target); [lia|].
Qed.

Lemma search_loop_fits n low high best log mid :
  (low + high) `div` 2 = mid ->
  sz mid <= target ->
  search_loop (S n) img output_format target low high best log
  = search_loop n img output_format target (mid + 1) high mid
      (log ++ [Probe low high mid]).
Proof.
  intros <- Hle. simpl. rewrite encodes.
  by destruct (Z.leb_spec (sz ((low + high) `div` 2)) target); [|lia].
Qed.

(** A pass that is made logs its probe. *)
Lemma search_loop_first_probe n low high best log :
  In (Probe low high ((low + high) `div` 2))
    (search_loop (S n) img output_format target low high best log).2.
Proof.
  simpl. rewrite encodes.
  destruct (sz _ <=? target); rewrite search_loop_log; simpl;
    rewrite !in_app_iff; simpl; tauto.
Qed.

(** While every probe is over the target, [best_quality] is kept. *)
Lemma search_loop_keeps_default n low high best :
  (forall p,
     In p (search_loop n img output_format target low high best []).2 ->
     target < sz (probe_quality p)) ->
  (search_loop n img output_format target low high best []).1 = Ok best.
Proof.
  revert low high best.
  induction n as [|n IH]; intros low high best Hover; simpl in *.
  - done.
  - rewrite encodes in *.
    destruct (Z.leb_spec (sz ((low + high) `div` 2)) target) as [Hle|Hgt].
    + rewrite search_loop_log in Hover. simpl in Hover.
      specialize (Hover (Probe low high ((low + high) `div` 2))
                    (or_introl eq_refl)).
      simpl in Hover. lia.
    + rewrite search_loop_log in *. simpl in *.
      apply IH. intros p Hp. apply Hover. by right.
Qed.
End Encodable.

End QualitySearchFacts.

Section QualitySearchConverges.
Context `{Pillow}.
Variables (img : Image) (output_format : string) (target : Z).
Variable sz : Z -> Z.
Hypothesis encodes :
  forall q, 1 <= q <= 100 ->
    trial_encode img output_format q = Some (Ok (sz q)).
Hypothesis monotone :
  forall q q', 1 <= q -> q <= q' -> q' <= 100 -> sz q <= sz q'.

(** One pass from a state of the invariant: the midpoint is a quality of
    1..100, and either branch keeps the invariant and halves the width of
    [low..high]. *)
Lemma search_step q0 low high best :
  search_inv sz target q0 low high best ->
  1 <= (low + high) `div` 2 <= 100 /\
  (sz ((low + high) `div` 2) <= target ->
   search_inv sz target q0 ((low + high) `div` 2 + 1) high
     ((low + high) `div` 2) /\
   2 * (high - (low + high) `div` 2) <= high - low + 1) /\
  (target < sz ((low + high) `div` 2) ->
   search_inv sz target q0 low ((low + high) `div` 2 - 1) best /\
   2 * ((low + high) `div` 2 - low) <= high - low).
Proof.
  intros (Hl & Hlh & Hh & Hq0 & Hfit & Hlow & Hhigh).
  set (mid := (low + high) `div` 2).
  assert (Hmid : 2 * mid <= low + high < 2 * mid + 2).
  { subst mid. pose proof (Z.div_mod (low + high) 2 ltac:(lia)).
    pose proof (Z.mod_pos_bound (low + high) 2 ltac:(lia)). lia. }
  split; [lia|]. split.
  - intros Hle.
    assert (sz (mid + 1 - 1) <= target)
      by (by replace (mid + 1 - 1) with mid by lia).
    unfold search_inv. repeat split; lia.
  - intros Hgt.
    assert (low <= high).
    { destruct (Z.le_gt_cases low high) as [|Hex]; [done|].
      assert (mid = low - 1) as Hm by lia.
      destruct Hlow as [->|[Hfits _]]; [lia|].
      rewrite <- Hm in Hfits. lia. }
    assert (q0 < mid).
    { destruct (Z.lt_ge_cases q0 mid) as [|Hge]; [done|].
      pose proof (monotone mid q0 ltac:(lia) ltac:(lia) ltac:(lia)).
      lia. }
    assert (target < sz (mid - 1 + 1))
      by (by replace (mid - 1 + 1) with mid by lia).
    unfold search_inv. repeat split; lia.
Qed.

Lemma search_loop_converges n q0 low high best log :
  search_inv sz target q0 low high best ->
  high - low + 1 < 2 ^ Z.of_nat n ->
  exists q,
    (search_loop n img output_format target low high best log).1 = Ok q /\
    1 <= q <= 100 /\ sz q <= target /\
    (q < 100 -> target < sz (q + 1)).
Proof.
  revert low high best log.
  induction n as [|n IH]; intros low high best log Inv Hw.
  - destruct Inv as (Hl & Hlh & Hh & Hq0 & Hfit & [->|[Hlow ->]] & Hhigh);
      simpl in *; [lia|].
    exists (low - 1). repeat split; try lia.
    intros Hlt. replace (low - 1 + 1) with (high + 1) by lia.
    destruct Hhigh; lia.
  - rewrite Nat2Z.inj_succ, Z.pow_succ_r in Hw by lia.
    destruct (search_step q0 low high best Inv) as (Hrange & Hfits & Hover).
    simpl. rewrite (encodes _ Hrange).
    destruct (Z.leb_spec (sz ((low + high) `div` 2)) target) as [Hle|Hgt].
    + destruct (Hfits Hle). apply IH; [done|lia].
    + destruct (Hover Hgt). apply IH; [done|lia].
Qed.

(** From a state of the invariant every probe is at a quality of 1..100. *)
Lemma search_loop_probes_in_range n q0 low high best log :
  search_inv sz target q0 low high best ->
  Forall (fun p => 1 <= probe_quality p <= 100) log ->
  Forall (fun p => 1 <= probe_quality p <= 100)
    (search_loop n img output_format target low high best log).2.
Proof.
  revert low high best log.
  induction n as [|n IH]; intros low high best log Inv Hlog; [done|].
  destruct (search_step q0 low high best Inv) as (Hrange & Hfits & Hover).
  simpl. rewrite (encodes _ Hrange).
  assert (Forall (fun p => 1 <= probe_quality p <= 100)
            (log ++ [Probe low high ((low + high) `div` 2)])).
  { apply Forall_app. split; [done|].
    constructor; [simpl; lia|constructor]. }
  destruct (Z.leb_spec (sz ((low + high) `div` 2)) target) as [Hle|Hgt].
  + destruct (Hfits Hle). by apply IH.
  + destruct (Hover Hgt). by apply IH.
Qed.

End QualitySearchConverges.

(** C1. For an image and a target that some quality of 1..100 meets, the
    encoded size growing with the quality, the quality search returns the
    largest quality [q] of 1..100 whose encoded size is at most the target:
    [q] fits, every quality that fits is at most [q], and [q + 1] does not
    fit when [q < 100]. *)
Theorem find_quality_is_maximal `{Pillow} (img : Image)
    (output_format : string) (target_size_bytes : Z) (sz : Z -> Z) :
  (forall q, 1 <= q <= 100 ->
     trial_encode img output_format q = Some (Ok (sz q))) ->
  (forall q q', 1 <= q -> q <= q' -> q' <= 100 -> sz q <= sz q') ->
  (exists q, 1 <= q <= 100 /\ sz q <= target_size_bytes) ->
  exists q,
    find_quality_for_target_size img output_format target_size_bytes = Ok q /\
    1 <= q <= 100 /\
    sz q <= target_size_bytes /\
    (forall q', 1 <= q' <= 100 -> sz q' <= target_size_bytes -> q' <= q) /\
    (q < 100 -> target_size_bytes < sz (q + 1)).
Proof.
  unfold find_quality_for_target_size, quality_search.
  intros Henc Hmono (q0 & Hq0 & Hfit).
  destruct (search_loop_converges img output_format target_size_bytes sz
              Henc Hmono 10 q0 1 100 85 [])
    as (q & Hres & Hq & Hqfit & Hnext).
  - unfold search_inv. repeat split; try lia; try done; by left.
  - simpl. lia.
  - exists q. repeat split; try done; try lia.
    intros q' Hq' Hfit'.
    destruct (Z.le_gt_cases q' q) as [|Hlt]; [done|].
    pose proof (Hmono (q + 1) q' ltac:(lia) ltac:(lia) ltac:(lia)). lia.
Qed.

(** The sample codec encodes at every quality, to the length it was given. *)
Lemma sized_codec_trial (f : Z -> Z) (img : Image) (q : Z) :
  @trial_encode (sized_codec f) img "webp" q
  = Some (Ok (Z.of_nat (Z.to_nat (f q)))).
Proof.
  unfold trial_encode. simpl. by rewrite length_replicate.
Qed.

(** With 1024 bytes per quality step and a target of 50 KB the search
    returns 50. *)
Lemma find_quality_is_maximal_witness :
  exists q,
    @find_quality_for_target_size (sized_codec (fun q => 1024 * q))
      (ramp 4 4) "webp" (50 * 1024) = Ok q /\
    1 <= q <= 100 /\
    Z.of_nat (Z.to_nat (1024 * q)) <= 50 * 1024 /\
    (forall q', 1 <= q' <= 100 ->
       Z.of_nat (Z.to_nat (1024 * q')) <= 50 * 1024 -> q' <= q) /\
    (q < 100 -> 50 * 1024 < Z.of_nat (Z.to_nat (1024 * (q + 1)))).
Proof.
  apply (@find_quality_is_maximal (sized_codec (fun q => 1024 * q))
           (ramp 4 4) "webp" (50 * 1024)
           (fun q => Z.of_nat (Z.to_nat (1024 * q)))).
  - intros q _. apply sized_codec_trial.
  - intros q q' H1 H2 H3. lia.
  - exists 1. lia.
Defined.

(** Under the same conditions every probe of the search is at a quality
    of 1..100. *)
Lemma probes_in_range_when_reachable `{Pillow} (img : Image)
    (output_format : string) (target_size_bytes : Z) (sz : Z -> Z) :
  (forall q, 1 <= q <= 100 ->
     trial_encode img output_format q = Some (Ok (sz q))) ->
  (forall q q', 1 <= q -> q <= q' -> q' <= 100 -> sz q <= sz q') ->
  (exists q, 1 <= q <= 100 /\ sz q <= target_size_bytes) ->
  Forall (fun p => 1 <= probe_quality p <= 100)
    (probes img output_format target_size_bytes).
Proof.
  unfold probes, quality_search.
  intros Henc Hmono (q0 & Hq0 & Hfit).
  apply (search_loop_probes_in_range img output_format target_size_bytes sz
           Henc Hmono 10 q0); [|done].
  unfold search_inv. repeat split; try lia; try done; by left.
Qed.

(** C2, as stated, fails: with 1024 bytes per quality step and a target of
    50 KB the space is exhausted after six passes ([low = 51], [high = 50]),
    and the loop still probes from that state. *)
Lemma search_probes_past_exhaustion :
  exists p,
    In p (@probes (sized_codec (fun q => 1024 * q)) (ramp 4 4) "webp"
            (50 * 1024)) /\
    probe_high p < probe_low p.
Proof.
  exists (Probe 51 50 50). split; [|simpl; lia].
  vm_compute. tauto.
Qed.

(** C2, amended. The loop of the quality search is bounded by its fixed
    count of 10 passes, each with at most one probe encode, so a search
    performs at most 10 probe encodes whatever the image and the target;
    whenever the encoder answers at every quality it performs exactly 10:
    an exhausted search space ends nothing. *)
Theorem search_makes_at_most_ten_probes `{Pillow} (img : Image)
    (output_format : string) (target_size_bytes : Z) :
  (length (probes img output_format target_size_bytes) <= 10)%nat /\
  forall sz : Z -> Z,
    (forall q, trial_encode img output_format q = Some (Ok (sz q))) ->
    length (probes img output_format target_size_bytes) = 10%nat.
Proof.
  unfold probes, quality_search. split.
  - apply search_loop_length_nil.
  - intros sz Henc. by apply search_loop_length_nil_exact with sz.
Qed.

Lemma search_makes_at_most_ten_probes_witness :
  length (@probes (sized_codec (fun q => 1024 * q)) (ramp 4 4) "webp"
            (50 * 1024)) = 10%nat.
Proof.
  apply (proj2 (@search_makes_at_most_ten_probes
                  (sized_codec (fun q => 1024 * q)) (ramp 4 4) "webp"
                  (50 * 1024))
           (fun q => Z.of_nat (Z.to_nat (1024 * q)))).
  intros q. apply sized_codec_trial.
Defined.

(** C3. When the encoder answers at every quality and no probe of the
    search comes out at or under the target, the search does not fail: it
    returns the value [best_quality] started with, 85. *)
Theorem search_falls_back_to_default `{Pillow} (img : Image)
    (output_format : string) (target_size_bytes : Z) (sz : Z -> Z) :
  (forall q, trial_encode img output_format q = Some (Ok (sz q))) ->
  (forall p, In p (probes img output_format target_size_bytes) ->
     target_size_bytes < sz (probe_quality p)) ->
  find_quality_for_target_size img output_format target_size_bytes = Ok 85.
Proof.
  unfold find_quality_for_target_size, probes, quality_search.
  intros Henc Hover. by apply search_loop_keeps_default with sz.
Qed.

(** With 20000 bytes and more at every quality and a target of 10 KB the
    fallback 85 is returned, and its own encoding exceeds the target. *)
Lemma search_falls_back_to_default_witness :
  @find_quality_for_target_size (sized_codec (fun q => 20000 + q))
    (ramp 4 4) "webp" (10 * 1024) = Ok 85 /\
  10 * 1024 < 20000 + 85.
Proof.
  split; [|lia].
  apply (@search_falls_back_to_default (sized_codec (fun q => 20000 + q))
           (ramp 4 4) "webp" (10 * 1024)
           (fun q => Z.of_nat (Z.to_nat (20000 + q)))).
  - intros q. apply sized_codec_trial.
  - intros p Hp. vm_compute in Hp.
    repeat (destruct Hp as [<-|Hp]; [vm_compute; reflexivity|]).
    destruct Hp.
Defined.

(** Whenever every quality of 1..100 is over the target, six passes
    bring the search to [low = 1], [high = 0], and the seventh encodes at
    quality 0; if that encoding fits, 0 is returned. *)
Lemma search_probes_zero_when_unreachable `{Pillow} (img : Image)
    (output_format : string) (target_size_bytes : Z) (sz : Z -> Z) :
  (forall q, trial_encode img output_format q = Some (Ok (sz q))) ->
  (forall q, 1 <= q <= 100 -> target_size_bytes < sz q) ->
  In (Probe 1 0 0) (probes img output_format target_size_bytes) /\
  (sz 0 <= target_size_bytes ->
   find_quality_for_target_size img output_format target_size_bytes = Ok 0).
Proof.
  intros Henc Hover.
  unfold find_quality_for_target_size, probes, quality_search.
  rewrite (search_loop_over img output_format target_size_bytes sz Henc
             9 1 100 85 [] 50 eq_refl) by (apply Hover; lia).
  rewrite (search_loop_over img output_format target_size_bytes sz Henc
             8 1 (50 - 1) 85 _ 25 eq_refl) by (apply Hover; lia).
  rewrite (search_loop_over img output_format target_size_bytes sz Henc
             7 1 (25 - 1) 85 _ 12 eq_refl) by (apply Hover; lia).
  rewrite (search_loop_over img output_format target_size_bytes sz Henc
             6 1 (12 - 1) 85 _ 6 eq_refl) by (apply Hover; lia).
  rewrite (search_loop_over img output_format target_size_bytes sz Henc
             5 1 (6 - 1) 85 _ 3 eq_refl) by (apply Hover; lia).
  rewrite (search_loop_over img output_format target_size_bytes sz Henc
             4 1 (3 - 1) 85 _ 1 eq_refl) by (apply Hover; lia).
  split.
  - apply (search_loop_first_probe img output_format target_size_bytes sz
             Henc 3 1 (1 - 1) 85).
  - intros Hzero.
    rewrite (search_loop_fits img output_format target_size_bytes sz Henc
               3 1 (1 - 1) 85 _ 0 eq_refl) by done.
    rewrite (search_loop_fits img output_format target_size_bytes sz Henc
               2 (0 + 1) (1 - 1) 0 _ 0 eq_refl) by done.
    rewrite (search_loop_fits img output_format target_size_bytes sz Henc
               1 (0 + 1) (1 - 1) 0 _ 0 eq_refl) by done.
    rewrite (search_loop_fits img output_format target_size_bytes sz Henc
               0 (0 + 1) (1 - 1) 0 _ 0 eq_refl) by done.
    done.
Qed.

(** C4 at its failing input: when every quality of 1..100 is over the
    target the seventh pass starts from [low = 1], [high = 0] and encodes at
    quality 0; here that encoding fits, and 0 is what the search returns. *)
Theorem search_leaves_quality_range :
  let codec := sized_codec (fun q => 10240 + 100 * q) in
  @find_quality_for_target_size codec (ramp 4 4) "webp" (10 * 1024) = Ok 0 /\
  map probe_quality (@probes codec (ramp 4 4) "webp" (10 * 1024))
  = [50; 25; 12; 6; 3; 1; 0; 0; 0; 0].
Proof.
  vm_compute. split; reflexivity.
Qed.

(** ** Cropping and cutting *)

(** Reading a list through a function of the index, over a range inside
    the list, is a slice of it. *)
Lemma fmap_seqZ_slice {A : Type} (f : Z -> A) (l : list A) (a n : Z) :
  0 <= a -> 0 <= n -> a + n <= Z.of_nat (length l) ->
  (forall (j : nat) (x : A), l !! j = Some x -> f (Z.of_nat j) = x) ->
  f <$> seqZ a n = take (Z.to_nat n) (drop (Z.to_nat a) l).
Proof.
  intros Ha Hn Hlen Hf. apply list_eq. intros i.
  rewrite list_lookup_fmap.
  destruct (decide (Z.of_nat i < n)) as [Hi|Hi].
  - rewrite lookup_seqZ_lt by done. simpl.
    rewrite lookup_take_lt by lia. rewrite lookup_drop.
    destruct (lookup_lt_is_Some_2 l (Z.to_nat a + i)) as [x Hx]; [lia|].
    rewrite Hx. f_equal.
    replace (a + Z.of_nat i) with (Z.of_nat (Z.to_nat a + i)) by lia.
    by apply Hf.
  - rewrite lookup_seqZ_ge by lia. simpl.
    by rewrite lookup_take_ge by lia.
Qed.

Section Crop.
Variable img : Image.
Hypothesis wf : wf_image img.

Lemma getpixel_in_row (j i : nat) (r : list Pixel) (p : Pixel) :
  rows img !! j = Some r -> r !! i = Some p ->
  getpixel img (Z.of_nat i) (Z.of_nat j) = p.
Proof.
  intros Hr Hp. unfold getpixel.
  rewrite !Nat2Z.id, Hr, Hp.
  destruct (Z.leb_spec 0 (Z.of_nat i)); [|lia].
  destruct (Z.leb_spec 0 (Z.of_nat j)); [done|lia].
Qed.

Lemma row_length (j : nat) (r : list Pixel) :
  rows img !! j = Some r -> Z.of_nat (length r) = width img.
Proof.
  destruct wf as (_ & _ & Hrows). intros Hr.
  rewrite Forall_lookup in Hrows. by apply (Hrows j).
Qed.

(** A crop inside the image takes the rows and the columns of the box. *)
Lemma crop_inside (x0 upper x1 lower : Z) :
  0 <= x0 -> x0 <= x1 -> x1 <= width img ->
  0 <= upper -> upper <= lower -> lower <= height img ->
  crop img (x0, upper, x1, lower) =
  Ok (mkImage (mode img) (x1 - x0) (lower - upper)
        ((fun r => take (Z.to_nat (x1 - x0)) (drop (Z.to_nat x0) r)) <$>
         take (Z.to_nat (lower - upper)) (drop (Z.to_nat upper) (rows img)))).
Proof.
  intros Hx0 Hx Hx1 Hu Hul Hl. unfold crop.
  destruct (Z.ltb_spec x1 x0); [lia|].
  destruct (Z.ltb_spec lower upper); [lia|].
  do 2 f_equal.
  rewrite fmap_take, fmap_drop.
  apply fmap_seqZ_slice; try lia.
  - rewrite length_fmap. destruct wf as (Hh & _). lia.
  - intros j r'. rewrite list_lookup_fmap.
    destruct (rows img !! j) as [r|] eqn:Hr; [|done].
    simpl. intros [= <-].
    apply fmap_seqZ_slice; try lia.
    + rewrite (row_length j r Hr). lia.
    + intros i p Hp. by apply getpixel_in_row with r.
Qed.

Lemma rows_take_all :
  (fun r : list Pixel => take (Z.to_nat (width img - 0)) (drop (Z.to_nat 0) r))
    <$> rows img = rows img.
Proof.
  destruct wf as (_ & _ & Hrows).
  induction Hrows as [|r rs Hr _ IH]; [done|].
  rewrite fmap_cons, IH. f_equal.
  change (Z.to_nat 0) with 0%nat. rewrite drop_0, Z.sub_0_r.
  apply take_ge. lia.
Qed.

End Crop.

Section Cut.
Variable img : Image.
Hypothesis wf : wf_image img.

Lemma crop_rows_band (upper lower : Z) :
  0 <= upper -> upper <= lower -> lower <= height img ->
  crop img (0, upper, width img, lower) =
  Ok (mkImage (mode img) (width img) (lower - upper)
        (take (Z.to_nat (lower - upper))
           (drop (Z.to_nat upper) (rows img)))).
Proof.
  intros Hu Hul Hl. pose proof wf as (_ & Hw & _).
  rewrite (crop_inside img wf) by lia.
  rewrite fmap_take, fmap_drop, (rows_take_all img wf).
  by rewrite Z.sub_0_r.
Qed.

Lemma crop_columns_band (x0 x1 : Z) :
  0 <= x0 -> x0 <= x1 -> x1 <= width img ->
  crop img (x0, 0, x1, height img) =
  Ok (mkImage (mode img) (x1 - x0) (height img)
        ((fun r => take (Z.to_nat (x1 - x0)) (drop (Z.to_nat x0) r)) <$>
         rows img)).
Proof.
  intros Hx0 Hx Hx1. pose proof wf as (Hh & _ & _).
  rewrite (crop_inside img wf) by lia.
  change (Z.to_nat 0) with 0%nat. rewrite drop_0, Z.sub_0_r.
  rewrite take_ge by lia. done.
Qed.

Lemma half_bounds (n : Z) : 0 <= n -> 0 <= n `div` 2 <= n.
Proof.
  intros Hn. pose proof (Z.div_mod n 2 ltac:(lia)).
  pose proof (Z.mod_pos_bound n 2 ltac:(lia)). lia.
Qed.

(** What a horizontal cut hands to [save_image]: the first [height // 2]
    rows, and the rows from there on. *)
Lemma cut_image_horizontal :
  cut_image img (VStr "horizontal") =
  Ok [("_top",
       mkImage (mode img) (width img) (height img `div` 2)
         (take (Z.to_nat (height img `div` 2)) (rows img)));
      ("_bottom",
       mkImage (mode img) (width img) (height img - height img `div` 2)
         (drop (Z.to_nat (height img `div` 2)) (rows img)))].
Proof.
  pose proof wf as (Hh & Hw & _).
  pose proof (half_bounds (height img) ltac:(lia)) as Hhalf.
  unfold cut_image, size.
  change (py_eq (VStr "horizontal") (VStr "none")) with false.
  change (py_eq (VStr "horizontal") (VStr "horizontal")) with true.
  cbv iota.
  rewrite !crop_rows_band by lia. simpl.
  change (Z.to_nat 0) with 0%nat. rewrite drop_0, Z.sub_0_r.
  rewrite (take_ge (drop _ _)) by (rewrite length_drop; lia).
  done.
Qed.

(** What a vertical cut hands to [save_image]: of every row the first
    [width // 2] pixels, and the pixels from there on. *)
Lemma cut_image_vertical :
  cut_image img (VStr "vertical") =
  Ok [("_left",
       mkImage (mode img) (width img `div` 2) (height img)
         (take (Z.to_nat (width img `div` 2)) <$> rows img));
      ("_right",
       mkImage (mode img) (width img - width img `div` 2) (height img)
         (drop (Z.to_nat (width img `div` 2)) <$> rows img))].
Proof.
  pose proof wf as (Hh & Hw & Hrows).
  pose proof (half_bounds (width img) ltac:(lia)) as Hhalf.
  unfold cut_image, size.
  change (py_eq (VStr "vertical") (VStr "none")) with false.
  change (py_eq (VStr "vertical") (VStr "horizontal")) with false.
  change (py_eq (VStr "vertical") (VStr "vertical")) with true.
  cbv iota.
  rewrite !crop_columns_band by lia. simpl.
  rewrite Z.sub_0_r. change (Z.to_nat 0) with 0%nat.
  assert ((fun r : list Pixel =>
             take (Z.to_nat (width img - width img `div` 2))
               (drop (Z.to_nat (width img `div` 2)) r)) <$> rows img
          = drop (Z.to_nat (width img `div` 2)) <$> rows img) as ->.
  { apply Forall_fmap_ext_1.
    eapply Forall_impl; [exact Hrows|]. intros r Hr. simpl in *.
    apply take_ge. rewrite length_drop. lia. }
  done.
Qed.

End Cut.

Lemma zip_with_take_drop {A : Type} (n : nat) (l : list (list A)) :
  zip_with app (take n <$> l) (drop n <$> l) = l.
Proof.
  induction l as [|r l IH]; [done|].
  rewrite !fmap_cons. cbn [zip_with]. by rewrite take_drop, IH.
Qed.

Lemma ramp_wf : wf_image (ramp 3 5).
Proof.
  unfold wf_image. simpl. repeat split; [lia|]. repeat constructor.
Defined.

(** C8. A horizontal cut of a W×H image hands on a top image of exactly
    [H // 2] rows and a bottom image of exactly [H - H // 2] rows, both W
    wide; a vertical cut hands on a left image [W // 2] wide and a right
    image [W - W // 2] wide, both H high.  Each half is well formed: it has
    as many rows as its height and every row is as long as its width. *)
Theorem cut_halves_sizes (img : Image) :
  wf_image img ->
  (exists top_half bottom_half,
     cut_image img (VStr "horizontal")
     = Ok [("_top", top_half); ("_bottom", bottom_half)] /\
     size top_half = (width img, height img `div` 2) /\
     size bottom_half = (width img, height img - height img `div` 2) /\
     wf_image top_half /\ wf_image bottom_half) /\
  (exists left_half right_half,
     cut_image img (VStr "vertical")
     = Ok [("_left", left_half); ("_right", right_half)] /\
     size left_half = (width img `div` 2, height img) /\
     size right_half = (width img - width img `div` 2, height img) /\
     wf_image left_half /\ wf_image right_half).
Proof.
  intros wf. pose proof wf as (Hh & Hw & Hrows).
  pose proof (half_bounds (height img) ltac:(lia)) as Hhalf.
  pose proof (half_bounds (width img) ltac:(lia)) as Whalf.
  split.
  - eexists _, _. split; [apply (cut_image_horizontal img wf)|].
    unfold wf_image, size; simpl. repeat split; try lia.
    + rewrite length_take. lia.
    + by apply Forall_take.
    + rewrite length_drop. lia.
    + by apply Forall_drop.
  - eexists _, _. split; [apply (cut_image_vertical img wf)|].
    unfold wf_image, size; simpl. repeat split; try lia.
    + rewrite length_fmap. lia.
    + apply Forall_fmap. eapply Forall_impl; [exact Hrows|].
      intros r Hr. simpl in *. rewrite length_take. lia.
    + rewrite length_fmap. lia.
    + apply Forall_fmap. eapply Forall_impl; [exact Hrows|].
      intros r Hr. simpl in *. rewrite length_drop. lia.
Qed.

Lemma cut_halves_sizes_witness :
  exists top_half bottom_half,
    cut_image (ramp 3 5) (VStr "horizontal")
    = Ok [("_top", top_half); ("_bottom", bottom_half)] /\
    size top_half = (3, 2) /\ size bottom_half = (3, 3) /\
    wf_image top_half /\ wf_image bottom_half.
Proof.
  exact (proj1 (cut_halves_sizes (ramp 3 5) ramp_wf)).
Defined.

(** C10. The two halves of a cut partition the image: the top half stacked
    on the bottom half, and the left half joined to the right half, are the
    image itself, pixel for pixel, with its mode and size. *)
Theorem cut_halves_partition (img : Image) :
  wf_image img ->
  (exists top_half bottom_half,
     cut_image img (VStr "horizontal")
     = Ok [("_top", top_half); ("_bottom", bottom_half)] /\
     stack_rows top_half bottom_half = img) /\
  (exists left_half right_half,
     cut_image img (VStr "vertical")
     = Ok [("_left", left_half); ("_right", right_half)] /\
     join_columns left_half right_half = img).
Proof.
  intros wf. split.
  - eexists _, _. split; [apply (cut_image_horizontal img wf)|].
    unfold stack_rows. simpl. rewrite take_drop.
    destruct img as [m w h r]. simpl. f_equal. lia.
  - eexists _, _. split; [apply (cut_image_vertical img wf)|].
    unfold join_columns. simpl. rewrite zip_with_take_drop.
    destruct img as [m w h r]. simpl. f_equal. lia.
Qed.

Lemma cut_halves_partition_witness :
  exists top_half bottom_half,
    cut_image (ramp 3 5) (VStr "horizontal")
    = Ok [("_top", top_half); ("_bottom", bottom_half)] /\
    stack_rows top_half bottom_half = ramp 3 5.
Proof.
  exact (proj1 (cut_halves_partition (ramp 3 5) ramp_wf)).
Defined.

(** ** Saving as PNG *)

(** A format that is neither WebP nor JPEG leaves the search in its first
    pass, with the first midpoint and without an encode. *)
Lemma search_loop_other_format `{Pillow} (img : Image) (fmt : string)
    (target : Z) (n : nat) (low high best : Z) (log : list probe) :
  is_webp fmt = false -> is_jpeg fmt = false ->
  search_loop (S n) img fmt target low high best log
  = (Ok ((low + high) `div` 2), log).
Proof.
  intros Hw Hj. simpl. unfold trial_encode. by rewrite Hw, Hj.
Qed.

Lemma find_quality_other_format `{Pillow} (img : Image) (fmt : string)
    (target : Z) :
  is_webp fmt = false -> is_jpeg fmt = false ->
  find_quality_for_target_size img fmt target = Ok 50.
Proof.
  intros Hw Hj. unfold find_quality_for_target_size, quality_search.
  by rewrite (search_loop_other_format img fmt target 9).
Qed.

(** With the format [png], [save_image] is the PNG write and the size
    accounting, whatever the quality and the target size are. *)
Lemma save_image_png `{Pillow} `{OS} (img : Image) (output_path : string)
    (settings : gmap string value) (fmt : string) (q kb : Z) (st : state) :
  settings !! "output_format" = Some (VStr fmt) ->
  lower fmt = "png" ->
  save_image img output_path
    (<["quality" := VInt q]> (<["target_size_kb" := VInt kb]> settings)) st
  = match save_to img output_path (PNG true) st with
    | (Ok _, st') =>
        match disk st' !! output_path with
        | Some b => add_new_size (Z.of_nat (length b)) st'
        | None => (Ok (), st')
        end
    | (Raise e, st') => (Raise e, st')
    end.
Proof.
  intros Hfmt Hlow. unfold save_image.
  assert (get (<["quality" := VInt q]>
                 (<["target_size_kb" := VInt kb]> settings))
            "output_format" (VStr "webp") = VStr fmt) as ->.
  { unfold get. by simplify_map_eq. }
  assert (get (<["quality" := VInt q]>
                 (<["target_size_kb" := VInt kb]> settings))
            "target_size_kb" (VInt 0) = VInt kb) as ->.
  { unfold get. by simplify_map_eq. }
  assert (get (<["quality" := VInt q]>
                 (<["target_size_kb" := VInt kb]> settings))
            "quality" (VInt 85) = VInt q) as ->.
  { unfold get. by simplify_map_eq. }
  cbn [as_str as_int fmap Result_fmap]. rewrite Hlow.
  unfold mbind, M_bind, lift, mret, M_ret.
  change (is_webp "png") with false. change (is_jpeg "png") with false.
  change ("png" =? "png")%string with true. cbv iota.
  destruct (0 <? kb).
  - rewrite find_quality_other_format by done.
    destruct (save_to img output_path (PNG true) st) as [[[]|e] st']; [|done].
    unfold exists_, getsize.
    destruct (disk st' !! output_path) eqn:Hd; simpl; by rewrite ?Hd.
  - destruct (save_to img output_path (PNG true) st) as [[[]|e] st']; [|done].
    unfold exists_, getsize.
    destruct (disk st' !! output_path) eqn:Hd; simpl; by rewrite ?Hd.
Qed.

(** C9. When the output format is png, [save_image] does the same for any
    two values of quality and target size; and when the output path can be
    written and the PNG encoder (with [optimize=True]) answers, it raises
    nothing: the file holds exactly those bytes and their count is added to
    the new size. *)
Theorem save_image_png_ignores_quality `{Pillow} `{OS} (img : Image)
    (output_path : string) (settings : gmap string value) (fmt : string)
    (st : state) :
  settings !! "output_format" = Some (VStr fmt) ->
  lower fmt = "png" ->
  (forall q1 kb1 q2 kb2 : Z,
     save_image img output_path
       (<["quality" := VInt q1]> (<["target_size_kb" := VInt kb1]> settings))
       st
     = save_image img output_path
         (<["quality" := VInt q2]>
            (<["target_size_kb" := VInt kb2]> settings)) st) /\
  (forall (q kb : Z) (b : list byte),
     write_error (disk st) output_path = None ->
     save img (PNG true) = Ok b ->
     save_image img output_path
       (<["quality" := VInt q]> (<["target_size_kb" := VInt kb]> settings)) st
     = (Ok (),
        mkState (<[output_path := b]> (disk st)) (total_original_size st)
          (total_new_size st + Z.of_nat (length b)) (emitted st))).
Proof.
  intros Hfmt Hlow. split.
  - intros q1 kb1 q2 kb2.
    by rewrite !(save_image_png img output_path settings fmt).
  - intros q kb b Hwrite Hsave.
    rewrite (save_image_png img output_path settings fmt) by done.
    unfold save_to. rewrite Hwrite, Hsave. simpl.
    by rewrite lookup_insert_eq.
Qed.

Lemma save_image_png_ignores_quality_witness :
  @save_image (sized_codec (fun q => q)) (plain_os []) (ramp 3 5) "out/r.png"
    (<["quality" := VInt 85]>
       (<["target_size_kb" := VInt 0]> (plain_settings "png"))) two_files
  = @save_image (sized_codec (fun q => q)) (plain_os []) (ramp 3 5)
      "out/r.png"
      (<["quality" := VInt 10]>
         (<["target_size_kb" := VInt 500]> (plain_settings "png"))) two_files.
Proof.
  apply (proj1 (@save_image_png_ignores_quality (sized_codec (fun q => q))
                  (plain_os []) (ramp 3 5) "out/r.png" (plain_settings "png")
                  "png" two_files eq_refl eq_refl)).
Defined.

(** ** The batch coordinator *)

Create HintDb silent discriminated.

Lemma silent_ret {A : Type} (a : A) : silent (mret a : M A).
Proof. done. Qed.

Lemma silent_lift {A : Type} (r : Result A) : silent (lift r).
Proof. done. Qed.

Lemma silent_bind {A B : Type} (m : M A) (f : A -> M B) :
  silent m -> (forall a, silent (f a)) -> silent (m ≫= f).
Proof.
  intros Hm Hf st. unfold mbind, M_bind.
  specialize (Hm st). destruct (m st) as [[a|e] st']; simpl in *.
  - by rewrite Hf.
  - done.
Qed.

Lemma silent_getsize (path : string) : silent (getsize path).
Proof. intros st. unfold getsize. by destruct (disk st !! path). Qed.

Lemma silent_exists (path : string) : silent (exists_ path).
Proof. done. Qed.

Lemma silent_add_original_size (n : Z) : silent (add_original_size n).
Proof. done. Qed.

Lemma silent_add_new_size (n : Z) : silent (add_new_size n).
Proof. done. Qed.

#[local] Hint Resolve silent_ret silent_lift silent_getsize silent_exists
  silent_add_original_size silent_add_new_size : silent.

Section Coordinator.
Context `{Pillow} `{OS}.
Variables (output_dir : string) (settings : gmap string value).

Lemma silent_Image_open (file_path : string) : silent (Image_open file_path).
Proof. intros st. unfold Image_open. by destruct (disk st !! file_path). Qed.

Lemma silent_save_to (img : Image) (path : string) (params : save_params) :
  silent (save_to img path params).
Proof.
  intros st. unfold save_to.
  destruct (write_error (disk st) path); [done|].
  by destruct (save img params).
Qed.

Lemma silent_save_image (img : Image) (path : string) :
  silent (save_image img path settings).
Proof.
  unfold save_image.
  repeat first
    [ apply silent_bind; [|intros ?]
    | apply silent_save_to
    | match goal with |- silent (if ?b then _ else _) => destruct b end
    | solve [auto with silent] ].
Qed.

Lemma silent_save_all (base_name output_format : string)
    (outputs : list (string * Image)) :
  silent (save_all output_dir base_name output_format settings outputs).
Proof.
  induction outputs as [|[ending img] rest IH]; simpl.
  - auto with silent.
  - apply silent_bind; [apply silent_save_image|done].
Qed.

Lemma silent_process_image (file_path : string) :
  silent (process_image output_dir settings file_path).
Proof.
  unfold process_image.
  repeat first
    [ apply silent_bind; [|intros ?]
    | apply silent_Image_open
    | apply silent_save_all
    | solve [auto with silent] ].
Qed.

(** The loop over a list of files goes through its first part, then
    through the rest from the index it reached. *)
Lemma process_files_app (total idx : Z) (pre rest : list string) (st : state) :
  process_files output_dir settings total idx (pre ++ rest) st
  = match process_files output_dir settings total idx pre st with
    | (Ok _, st1) =>
        process_files output_dir settings total
          (idx + Z.of_nat (length pre)) rest st1
    | (Raise e, st1) => (Raise e, st1)
    end.
Proof.
  revert idx st. induction pre as [|f pre IH]; intros idx st.
  - simpl. by rewrite Z.add_0_r.
  - cbn [app process_files length]. unfold mbind, M_bind.
    destruct (process_image output_dir settings f st) as [[[]|e] st1];
      [|done].
    destruct (lift (progress_percent idx total) st1) as [[pct|e] st2];
      [|done].
    destruct (emit (progress pct) st2) as [[[]|e] st3]; [|done].
    rewrite IH. replace (idx + 1 + Z.of_nat (length pre))
      with (idx + Z.of_nat (S (length pre))) by lia.
    done.
Qed.

(** A failing file ends the loop where it failed. *)
Lemma process_files_failure (total idx : Z) (f : string)
    (post : list string) (st st' : state) (e : exn) :
  process_image output_dir settings f st = (Raise e, st') ->
  process_files output_dir settings total idx (f :: post) st = (Raise e, st').
Proof.
  intros Hf. cbn [process_files]. unfold mbind, M_bind. by rewrite Hf.
Qed.

End Coordinator.

(** C5, as stated, fails: the first of two files cannot be written, and
    the run ends with the one [error] signal; the second file, which alone
    is processed without error, is never reached, and its output is not on
    the disk. *)
Lemma run_does_not_skip_failed_file :
  let codec := sized_codec (fun q => q) in
  let os := plain_os ["out/a.png.webp"] in
  let st := @run codec os ["a.png"; "b.png"] "out" (plain_settings "webp")
              two_files in
  let alone := @run codec os ["b.png"] "out" (plain_settings "webp")
                 two_files in
  emitted st = [error "Error: [Errno 28] No space left on device"] /\
  disk st !! "out/b.png.webp" = None /\
  disk alone !! "out/b.png.webp" = Some (replicate 85 x00) /\
  last (emitted alone) = Some (finished "Successfully processed 1 image(s)").
Proof.
  vm_compute. repeat split; reflexivity.
Qed.

(** C5, amended. When a file of the batch raises, the files before it
    having been processed, the coordinator catches the exception and emits
    one [error] signal with its message; the run ends there: the disk and
    the counters are as the failing file left them, the signals are those
    of the files before it and the error, and no file after it is read or
    written. *)
Theorem run_aborts_at_first_failure `{Pillow} `{OS} (output_dir : string)
    (settings : gmap string value) (pre : list string) (f : string)
    (post : list string) (st st1 st2 : state) (e : exn) :
  process_files output_dir settings
    (Z.of_nat (length (pre ++ f :: post))) 0 pre st = (Ok (), st1) ->
  process_image output_dir settings f st1 = (Raise e, st2) ->
  run (pre ++ f :: post) output_dir settings st
  = mkState (disk st2) (total_original_size st2) (total_new_size st2)
      (emitted st1 ++ [error ("Error: " +:+ exn_message e)]).
Proof.
  intros Hpre Hf. unfold run, run_body, mbind, M_bind.
  rewrite process_files_app, Hpre.
  rewrite (process_files_failure output_dir settings _ _ f post st1 st2 e Hf).
  pose proof (silent_process_image output_dir settings f st1) as Hsilent.
  rewrite Hf in Hsilent. simpl in *. by rewrite Hsilent.
Qed.

Lemma run_aborts_at_first_failure_witness :
  @run (sized_codec (fun q => q)) (plain_os ["out/a.png.webp"])
    (["a.png"; "b.png"]) "out" (plain_settings "webp") two_files
  = mkState (disk two_files) 1 0
      [error "Error: [Errno 28] No space left on device"].
Proof.
  apply (@run_aborts_at_first_failure (sized_codec (fun q => q))
           (plain_os ["out/a.png.webp"]) "out" (plain_settings "webp")
           [] "a.png" ["b.png"] two_files two_files
           (mkState (disk two_files) 1 0 [])
           (Exn "OSError" "[Errno 28] No space left on device")).
  - reflexivity.
  - vm_compute. reflexivity.
Defined.

(** ** The watermark *)

(** With the watermark box checked, the settings carry the flag and the
    text of the line edit. *)
Lemma get_settings_watermark (w : Widgets) (s : gmap string value) :
  get_settings w = Ok s ->
  watermark_enabled w = true ->
  s !! "watermark_enabled" = Some (VBool true) /\
  s !! "watermark_text" = Some (VStr (watermark_text w)).
Proof.
  unfold get_settings. intros Hs Hen. rewrite Hen in Hs.
  match type of Hs with
  | context [mbind _ ?m] => destruct m as [s0|e]
  end; cbn [mbind Result_bind mret Result_ret] in Hs; [|discriminate].
  injection Hs as <-. by simplify_map_eq.
Qed.

(** C6, as stated, fails: with the watermark enabled and an empty text the
    transform engine raises nothing.  [add_watermark] returns the image it
    was given, and the run ends with [finished] and the file written. *)
Lemma empty_watermark_is_skipped :
  let codec := sized_codec (fun q => q) in
  let settings :=
    <["watermark_text" := VStr ""]>
      (<["watermark_enabled" := VBool true]> (plain_settings "webp")) in
  let st := @run codec (plain_os []) ["b.png"] "out" settings two_files in
  @add_watermark codec (ramp 3 5) settings = Ok (ramp 3 5) /\
  last (emitted st) = Some (finished "Successfully processed 1 image(s)") /\
  disk st !! "out/b.png.webp" = Some (replicate 85 x00).
Proof.
  vm_compute. repeat split; reflexivity.
Qed.

(** C6, amended. With at least one file selected, the watermark box checked
    and an empty text, it is the window that refuses: [process_images]
    shows the warning box and returns, the output folder is not created and
    the worker is not started, so no file is read or written.  The
    transform engine itself raises nothing on such settings:
    [add_watermark] returns the image unchanged. *)
Theorem empty_watermark_stops_at_window `{Pillow} `{OS} (app : App)
    (settings : gmap string value) :
  selected_files app <> [] ->
  watermark_enabled (ui app) = true ->
  watermark_text (ui app) = "" ->
  get_settings (ui app) = Ok settings ->
  process_images app
  = Ok (app,
        [warning "Watermark Text Required"
           "Please enter watermark text or disable watermark!"]) /\
  forall img : Image, add_watermark img settings = Ok img.
Proof.
  intros Hfiles Hen Htext Hs.
  destruct (get_settings_watermark _ _ Hs Hen) as [Hflag Hwm].
  rewrite Htext in Hwm. split.
  - unfold process_images.
    destruct (selected_files app) as [|first_file rest]; [done|].
    rewrite Hs. cbn [mbind Result_bind]. unfold getitem.
    by rewrite Hflag, Hwm.
  - intros img. unfold add_watermark, get. by rewrite Hwm.
Qed.

Lemma empty_watermark_stops_at_window_witness :
  let app := mkApp ["b.png"] "" (fresh_widgets true "") in
  @process_images (plain_os []) app
  = Ok (app,
        [warning "Watermark Text Required"
           "Please enter watermark text or disable watermark!"]).
Proof.
  destruct (get_settings (fresh_widgets true "")) as [s|e] eqn:Hs;
    [|discriminate].
  exact (proj1 (@empty_watermark_stops_at_window (sized_codec (fun q => q))
                  (plain_os []) (mkApp ["b.png"] "" (fresh_widgets true ""))
                  s ltac:(discriminate) eq_refl eq_refl Hs)).
Defined.

(** ** Resizing to a preset width *)

Lemma resize_size `{Pillow} (img : Image) (w h : Z) :
  1 <= w -> 1 <= h ->
  exists img', resize img w h = Ok img' /\ size img' = (w, h).
Proof.
  intros Hw Hh. unfold resize.
  destruct (Z.eqb_spec w (width img)) as [->|_];
    [destruct (Z.eqb_spec h (height img)) as [->|_]|]; simpl.
  - by exists img.
  - destruct (Z.ltb_spec (width img) 1), (Z.ltb_spec h 1); try lia.
    by eexists.
  - destruct (Z.ltb_spec w 1), (Z.ltb_spec h 1); try lia.
    by eexists.
Qed.

(** C7, as stated, fails: a 1600×5 image resized to the preset width 1200
    gets the height [int(5 * 0.75) = 3], where rounding 3.75 gives 4. *)
Lemma preset_height_is_truncated :
  let settings : gmap string value :=
    <["preset_width" := VInt 1200]>
      (<["resize_mode" := VStr "preset"]>
         (<["maintain_aspect" := VBool true]>
            (<["resize_enabled" := VBool true]> (plain_settings "webp")))) in
  size <$> @resize_image (sized_codec (fun q => q))
             (Image_new "RGB" (1600, 5) [0; 0; 0]) settings
  = Ok (1200, 3) /\
  spec_preset_height 5 1200 1600 = 4.
Proof.
  vm_compute. split; reflexivity.
Qed.

(** C7, amended. In preset mode with one of the widths 1920, 1200, 800,
    400, the resized image has the preset width.  With the aspect
    maintained its height is [int(height * (target_width / width))], the
    float product cut off towards zero and not rounded, provided this is at
    least 1; with the aspect not maintained the height is unchanged. *)
Theorem resize_preset_size `{Pillow} (img : Image)
    (settings : gmap string value) (target_width : Z) :
  settings !! "resize_mode" = Some (VStr "preset") ->
  settings !! "preset_width" = Some (VInt target_width) ->
  In target_width [1920; 1200; 800; 400] ->
  (truthy (get settings "maintain_aspect" (VBool true)) = true ->
   forall (ratio : float) (target_height : Z),
     truediv target_width (width img) = Ok ratio ->
     scaled (height img) ratio = Ok target_height ->
     1 <= target_height ->
     exists img', resize_image img settings = Ok img' /\
                  size img' = (target_width, target_height)) /\
  (truthy (get settings "maintain_aspect" (VBool true)) = false ->
   1 <= height img ->
   exists img', resize_image img settings = Ok img' /\
                size img' = (target_width, height img)).
Proof.
  intros Hmode Hwidth Hpreset.
  assert (1 <= target_width) as Hpos.
  { simpl in Hpreset. lia. }
  unfold resize_image.
  assert (get settings "resize_mode" (VStr "width") = VStr "preset") as ->
    by (unfold get; by rewrite Hmode).
  assert (get settings "preset_width" (VInt 1920) = VInt target_width) as ->
    by (unfold get; by rewrite Hwidth).
  change (py_eq (VStr "preset") (VStr "preset")) with true.
  cbn [as_int mbind Result_bind]. split.
  - intros -> ratio target_height -> Hscaled Hheight.
    cbn [mbind Result_bind]. rewrite Hscaled.
    by apply resize_size.
  - intros -> Hheight. cbn [mbind Result_bind mret Result_ret].
    by apply resize_size.
Qed.

Lemma resize_preset_size_witness :
  exists img',
    @resize_image (sized_codec (fun q => q))
      (Image_new "RGB" (1600, 5) [0; 0; 0])
      (<["preset_width" := VInt 1200]>
         (<["resize_mode" := VStr "preset"]> (plain_settings "webp")))
    = Ok img' /\
    size img' = (1200, 3).
Proof.
  refine (proj1 (@resize_preset_size (sized_codec (fun q => q))
                   (Image_new "RGB" (1600, 5) [0; 0; 0])
                   (<["preset_width" := VInt 1200]>
                      (<["resize_mode" := VStr "preset"]>
                         (plain_settings "webp")))
                   1200 _ _ _)
            _ 0.75%float 3 _ _ _).
  - vm_compute. reflexivity.
  - vm_compute. reflexivity.
  - simpl. tauto.
  - vm_compute. reflexivity.
  - vm_compute. reflexivity.
  - vm_compute. reflexivity.
  - lia.
Defined.

(** * Further properties of the worker and the window *)

(** ** The quality search without assumptions on the sizes *)

Section QualitySearchSound.
Context `{Pillow}.
Variables (img : Image) (output_format : string) (target : Z).
Variable sz : Z -> Z.
Hypothesis encodes :
  forall q, trial_encode img output_format q = Some (Ok (sz q)).

(** The loop returns a quality that was probed and fits, or, when no probe
    fits, the [best_quality] it started from. *)
Lemma search_loop_sound n low high best :
  exists q,
    (search_loop n img output_format target low high best []).1 = Ok q /\
    ((exists p,
        In p (search_loop n img output_format target low high best []).2 /\
        probe_quality p = q /\ sz q <= target) \/
     (q = best /\
      forall p,
        In p (search_loop n img output_format target low high best []).2 ->
        target < sz (probe_quality p))).
Proof.
  revert low high best.
  induction n as [|n IH]; intros low high best.
  - exists best. split; [done|]. right. split; [done|]. intros p [].
  - simpl. rewrite encodes.
    set (mid := (low + high) `div` 2).
    destruct (Z.leb_spec (sz mid) target) as [Hle|Hgt];
      rewrite search_loop_log; simpl.
    + destruct (IH (mid + 1) high mid) as (q & Hq & [(p & Hp & Hpq & Hfit)|[-> _]]).
      * exists q. split; [done|]. left. exists p. auto.
      * exists mid. split; [done|]. left.
        exists (Probe low high mid). auto.
    + destruct (IH low (mid - 1) best) as (q & Hq & [(p & Hp & Hpq & Hfit)|[-> Hall]]).
      * exists q. split; [done|]. left. exists p. auto.
      * exists best. split; [done|]. right. split; [done|].
        intros p [<-|Hp]; [done|]. by apply Hall.
Qed.

End QualitySearchSound.

(** X1. Whenever the encoder answers at every quality, with or without
    monotone sizes, the search returns a quality: one of its probes whose
    encoding is at most the target, or 85 when no probe was. *)
Theorem search_result_fits `{Pillow} (img : Image) (output_format : string)
    (target_size_bytes : Z) (sz : Z -> Z) :
  (forall q, trial_encode img output_format q = Some (Ok (sz q))) ->
  exists q,
    find_quality_for_target_size img output_format target_size_bytes = Ok q /\
    ((exists p, In p (probes img output_format target_size_bytes) /\
                probe_quality p = q /\ sz q <= target_size_bytes) \/
     (q = 85 /\
      forall p, In p (probes img output_format target_size_bytes) ->
                target_size_bytes < sz (probe_quality p))).
Proof.
  unfold find_quality_for_target_size, probes, quality_search.
  intros Henc. by apply search_loop_sound.
Qed.

(** Sizes that go up and down: 9000 bytes at the even qualities, 20000 at
    the odd ones; the search settles on an even quality. *)
Lemma search_result_fits_witness :
  exists q,
    @find_quality_for_target_size
      (sized_codec (fun q => if Z.even q then 9000 else 20000))
      (ramp 4 4) "webp" (10 * 1024) = Ok q /\
    Z.even q = true.
Proof.
  destruct (@search_result_fits
              (sized_codec (fun q => if Z.even q then 9000 else 20000))
              (ramp 4 4) "webp" (10 * 1024)
              (fun q => Z.of_nat
                          (Z.to_nat (if Z.even q then 9000 else 20000)))
              (fun q => sized_codec_trial _ _ q))
    as (q & Hq & Hcase).
  exists q. split; [done|].
  destruct Hcase as [(p & _ & _ & Hfit)|[_ Hall]].
  - destruct (Z.even q); [done|]. simpl in Hfit. lia.
  - exfalso. specialize (Hall (Probe 1 100 50)).
    assert (In (Probe 1 100 50)
              (@probes (sized_codec (fun q => if Z.even q then 9000 else 20000))
                 (ramp 4 4) "webp" (10 * 1024))) as Hin.
    { apply (@search_loop_first_probe
               (sized_codec (fun q => if Z.even q then 9000 else 20000))
               (ramp 4 4) "webp" (10 * 1024) _
               (fun q => sized_codec_trial _ _ q) 9 1 100 85 []). }
    specialize (Hall Hin). simpl in Hall. lia.
Defined.

(** ** A failing encoder in the quality search *)

Lemma search_loop_raises `{Pillow} (img : Image) (output_format : string)
    (target : Z) (e : exn) n low high best log :
  (search_loop n img output_format target low high best log).1 = Raise e ->
  exists p,
    last (search_loop n img output_format target low high best log).2
    = Some p /\
    trial_encode img output_format (probe_quality p) = Some (Raise e).
Proof.
  revert low high best log.
  induction n as [|n IH]; intros low high best log; simpl; [done|].
  destruct (trial_encode img output_format ((low + high) `div` 2))
    as [[sz|e']|] eqn:Htrial; simpl.
  - destruct (sz <=? target); apply IH.
  - intros [= ->]. exists (Probe low high ((low + high) `div` 2)).
    by rewrite last_snoc.
  - done.
Qed.

(** X2. The search raises only what a probe encode raised, and it stops
    there: the failing probe is the last one made. *)
Theorem search_stops_at_failed_encode `{Pillow} (img : Image)
    (output_format : string) (target_size_bytes : Z) (e : exn) :
  find_quality_for_target_size img output_format target_size_bytes = Raise e ->
  exists p,
    last (probes img output_format target_size_bytes) = Some p /\
    trial_encode img output_format (probe_quality p) = Some (Raise e).
Proof.
  unfold find_quality_for_target_size, probes, quality_search.
  apply search_loop_raises.
Qed.

(** A codec that refuses quality 75: the second probe of the search. *)
Lemma search_stops_at_failed_encode_witness :
  exists p,
    last (@probes (refusing_codec (Z.eqb 75) (fun q => q)) (ramp 4 4) "webp"
            (10 * 1024)) = Some p /\
    @trial_encode (refusing_codec (Z.eqb 75) (fun q => q)) (ramp 4 4) "webp"
      (probe_quality p)
    = Some (Raise (Exn "OSError" "encoder error -2")).
Proof.
  apply (@search_stops_at_failed_encode
           (refusing_codec (Z.eqb 75) (fun q => q)) (ramp 4 4) "webp"
           (10 * 1024) (Exn "OSError" "encoder error -2")).
  vm_compute. reflexivity.
Defined.

(** ** What [save_image] and [process_image] leave alone *)

Lemma bind_Ok_inv {A B : Type} (m : M A) (f : A -> M B) (st st' : state)
    (b : B) :
  (m ≫= f) st = (Ok b, st') ->
  exists a st1, m st = (Ok a, st1) /\ f a st1 = (Ok b, st').
Proof.
  unfold mbind, M_bind. destruct (m st) as [[a|e] st1]; [|done].
  intros Hf. by exists a, st1.
Qed.

Lemma lift_Ok_inv {A : Type} (r : Result A) (st st' : state) (a : A) :
  lift r st = (Ok a, st') -> r = Ok a /\ st' = st.
Proof. unfold lift. by intros [= -> ->]. Qed.

Lemma writes_only_ret {A : Type} (P : string -> Prop) (a : A) :
  writes_only P (mret a : M A).
Proof. done. Qed.

Lemma writes_only_lift {A : Type} (P : string -> Prop) (r : Result A) :
  writes_only P (lift r).
Proof. done. Qed.

Lemma writes_only_bind {A B : Type} (P : string -> Prop) (m : M A)
    (f : A -> M B) :
  writes_only P m -> (forall a, writes_only P (f a)) ->
  writes_only P (m ≫= f).
Proof.
  intros Hm Hf st p Hp. unfold mbind, M_bind.
  specialize (Hm st p Hp). destruct (m st) as [[a|e] st']; simpl in *.
  - by rewrite Hf.
  - done.
Qed.

Lemma writes_only_getsize (P : string -> Prop) (path : string) :
  writes_only P (getsize path).
Proof. intros st p _. unfold getsize. by destruct (disk st !! path). Qed.

Lemma writes_only_exists (P : string -> Prop) (path : string) :
  writes_only P (exists_ path).
Proof. done. Qed.

Lemma writes_only_add_original_size (P : string -> Prop) (n : Z) :
  writes_only P (add_original_size n).
Proof. done. Qed.

Lemma writes_only_add_new_size (P : string -> Prop) (n : Z) :
  writes_only P (add_new_size n).
Proof. done. Qed.

Lemma keeps_original_size_ret {A : Type} (a : A) :
  keeps_original_size (mret a : M A).
Proof. done. Qed.

Lemma keeps_original_size_lift {A : Type} (r : Result A) :
  keeps_original_size (lift r).
Proof. done. Qed.

Lemma keeps_original_size_bind {A B : Type} (m : M A) (f : A -> M B) :
  keeps_original_size m -> (forall a, keeps_original_size (f a)) ->
  keeps_original_size (m ≫= f).
Proof.
  intros Hm Hf st. unfold mbind, M_bind.
  specialize (Hm st). destruct (m st) as [[a|e] st']; simpl in *.
  - by rewrite Hf.
  - done.
Qed.

Lemma keeps_original_size_getsize (path : string) :
  keeps_original_size (getsize path).
Proof. intros st. unfold getsize. by destruct (disk st !! path). Qed.

Lemma keeps_original_size_exists (path : string) :
  keeps_original_size (exists_ path).
Proof. done. Qed.

Lemma keeps_original_size_add_new_size (n : Z) :
  keeps_original_size (add_new_size n).
Proof. done. Qed.

Lemma grows_new_size_ret {A : Type} (a : A) : grows_new_size (mret a : M A).
Proof. intros st. simpl. lia. Qed.

Lemma grows_new_size_lift {A : Type} (r : Result A) :
  grows_new_size (lift r).
Proof. intros st. simpl. lia. Qed.

Lemma grows_new_size_bind {A B : Type} (m : M A) (f : A -> M B) :
  grows_new_size m -> (forall a, grows_new_size (f a)) ->
  grows_new_size (m ≫= f).
Proof.
  intros Hm Hf st. unfold mbind, M_bind.
  specialize (Hm st). destruct (m st) as [[a|e] st']; simpl in *.
  - specialize (Hf a st'). lia.
  - done.
Qed.

Lemma grows_new_size_exists (path : string) : grows_new_size (exists_ path).
Proof. intros st. simpl. lia. Qed.

Lemma grows_new_size_add_original_size (n : Z) :
  grows_new_size (add_original_size n).
Proof. intros st. simpl. lia. Qed.

Lemma grows_new_size_getsize (path : string) : grows_new_size (getsize path).
Proof.
  intros st. unfold getsize. destruct (disk st !! path); simpl; lia.
Qed.

Create HintDb frame discriminated.

#[local] Hint Resolve writes_only_ret writes_only_lift writes_only_getsize
  writes_only_exists writes_only_add_original_size writes_only_add_new_size
  keeps_original_size_ret keeps_original_size_lift
  keeps_original_size_getsize keeps_original_size_exists
  keeps_original_size_add_new_size grows_new_size_ret grows_new_size_lift
  grows_new_size_exists grows_new_size_add_original_size
  grows_new_size_getsize : frame.

(** A write that returns has put the encoded bytes at the path. *)
Lemma save_to_Ok_inv `{Pillow} `{OS} (img : Image) (path : string)
    (params : save_params) (st st' : state) :
  save_to img path params st = (Ok (), st') ->
  exists b, save img params = Ok b /\
    st' = mkState (<[path := b]> (disk st)) (total_original_size st)
            (total_new_size st) (emitted st).
Proof.
  unfold save_to.
  destruct (write_error (disk st) path) as [e|]; [done|].
  destruct (save img params) as [b|e]; [|done].
  intros [= <-]. by exists b.
Qed.

Section WorkerFrame.
Context `{Pillow} `{OS}.
Variables (output_dir : string) (settings : gmap string value).

Lemma writes_only_save_to (img : Image) (path : string)
    (params : save_params) :
  writes_only (fun p => p = path) (save_to img path params).
Proof.
  intros st p Hp. unfold save_to.
  destruct (write_error (disk st) path); [done|].
  destruct (save img params); [|done].
  simpl. by rewrite lookup_insert_ne.
Qed.

Lemma keeps_original_size_save_to (img : Image) (path : string)
    (params : save_params) :
  keeps_original_size (save_to img path params).
Proof.
  intros st. unfold save_to.
  destruct (write_error (disk st) path); [done|].
  by destruct (save img params).
Qed.

Lemma grows_new_size_save_to (img : Image) (path : string)
    (params : save_params) :
  grows_new_size (save_to img path params).
Proof.
  intros st. unfold save_to.
  destruct (write_error (disk st) path); [simpl; lia|].
  destruct (save img params); simpl; lia.
Qed.

Lemma grows_new_size_count (path : string) :
  grows_new_size (getsize path ≫= fun n => add_new_size n).
Proof.
  intros st. unfold mbind, M_bind, getsize.
  destruct (disk st !! path); simpl; lia.
Qed.

Lemma writes_only_save_image (img : Image) (path : string) :
  writes_only (fun p => p = path) (save_image img path settings).
Proof.
  unfold save_image.
  repeat first
    [ apply writes_only_bind; [|intros ?]
    | apply writes_only_save_to
    | match goal with
      | |- writes_only _ (if ?b then _ else _) => destruct b
      end
    | solve [auto with frame] ].
Qed.

Lemma keeps_original_size_save_image (img : Image) (path : string) :
  keeps_original_size (save_image img path settings).
Proof.
  unfold save_image.
  repeat first
    [ apply keeps_original_size_bind; [|intros ?]
    | apply keeps_original_size_save_to
    | match goal with
      | |- keeps_original_size (if ?b then _ else _) => destruct b
      end
    | solve [auto with frame] ].
Qed.

Lemma grows_new_size_save_image (img : Image) (path : string) :
  grows_new_size (save_image img path settings).
Proof.
  unfold save_image.
  repeat first
    [ apply grows_new_size_count
    | apply grows_new_size_bind; [|intros ?]
    | apply grows_new_size_save_to
    | match goal with
      | |- grows_new_size (if ?b then _ else _) => destruct b
      end
    | solve [auto with frame] ].
Qed.


Lemma keeps_original_size_save_all (base_name output_format : string)
    (outputs : list (string * Image)) :
  keeps_original_size
    (save_all output_dir base_name output_format settings outputs).
Proof.
  induction outputs as [|[ending img] rest IH]; simpl.
  - auto with frame.
  - apply keeps_original_size_bind;
      [apply keeps_original_size_save_image|done].
Qed.






End WorkerFrame.

(** X3. Whatever its outcome, [save_image] changes no file but the one at
    the output path, leaves the counter of the original sizes and the
    signals as they are, and never lowers the counter of the new sizes. *)
Theorem save_image_touches_only_output `{Pillow} `{OS} (img : Image)
    (output_path : string) (settings : gmap string value) (st : state) :
  (forall p, p <> output_path ->
     disk (save_image img output_path settings st).2 !! p = disk st !! p) /\
  total_original_size (save_image img output_path settings st).2
  = total_original_size st /\
  emitted (save_image img output_path settings st).2 = emitted st /\
  total_new_size st <= total_new_size (save_image img output_path settings st).2.
Proof.
  repeat split.
  - intros p Hp. by apply (writes_only_save_image settings img output_path).
  - apply keeps_original_size_save_image.
  - apply silent_save_image.
  - apply grows_new_size_save_image.
Qed.

(** X4. When [save_image] returns, the counter of the new sizes has grown
    by exactly the size of the file then at the output path (by nothing if
    there is none); and for the formats webp, jpg, jpeg and png that file
    is there. *)
Theorem save_image_accounting `{Pillow} `{OS} (img : Image)
    (output_path : string) (settings : gmap string value) (st st' : state) :
  save_image img output_path settings st = (Ok (), st') ->
  total_new_size st'
  = total_new_size st
    + match disk st' !! output_path with
      | Some b => Z.of_nat (length b)
      | None => 0
      end /\
  (forall f,
     lower <$> as_str (get settings "output_format" (VStr "webp")) = Ok f ->
     is_webp f || is_jpeg f || String.eqb f "png" = true ->
     is_Some (disk st' !! output_path)).
Proof.
  unfold save_image. intros Hs.
  apply bind_Ok_inv in Hs as (f & s1 & Hf & Hs).
  apply lift_Ok_inv in Hf as [Hf ->].
  apply bind_Ok_inv in Hs as (kb & s1 & Hkb & Hs).
  apply lift_Ok_inv in Hkb as [Hkb ->].
  apply bind_Ok_inv in Hs as (quality & s1 & Hq & Hs).
  assert (s1 = st) as ->.
  { destruct (0 <? kb).
    - apply bind_Ok_inv in Hq as (q & s2 & Hq & Hret).
      apply lift_Ok_inv in Hq as [_ ->]. by injection Hret as _ <-.
    - by injection Hq as _ <-. }
  apply bind_Ok_inv in Hs as ([] & s1 & Hwrite & Hs).
  apply bind_Ok_inv in Hs as (present & s2 & Hex & Hs).
  unfold exists_ in Hex. injection Hex as <- <-.
  assert (total_new_size s1 = total_new_size st) as Hnew.
  { destruct (is_webp f);
      [|destruct (is_jpeg f); [|destruct (f =? "png")%string]].
    - apply bind_Ok_inv in Hwrite as (q & s2 & Hq' & Hwrite).
      apply lift_Ok_inv in Hq' as [_ ->].
      by apply save_to_Ok_inv in Hwrite as (b & _ & ->).
    - apply bind_Ok_inv in Hwrite as (q & s2 & Hq' & Hwrite).
      apply lift_Ok_inv in Hq' as [_ ->].
      by apply save_to_Ok_inv in Hwrite as (b & _ & ->).
    - by apply save_to_Ok_inv in Hwrite as (b & _ & ->).
    - by injection Hwrite as <-. }
  split.
  - destruct (disk s1 !! output_path) as [b|] eqn:Hd.
    + rewrite bool_decide_eq_true_2 in Hs by eauto.
      unfold mbind, M_bind, getsize in Hs. rewrite Hd in Hs.
      injection Hs as <-. simpl. rewrite Hd. lia.
    + rewrite bool_decide_eq_false_2 in Hs by (by intros [? ?]).
      injection Hs as <-. rewrite Hd. lia.
  - intros f' Hf' Hfmt. rewrite Hf in Hf'. injection Hf' as <-.
    assert (is_Some (disk s1 !! output_path)) as Hsome.
    { destruct (is_webp f); [|destruct (is_jpeg f);
                                [|destruct (f =? "png")%string; [|done]]].
      - apply bind_Ok_inv in Hwrite as (q & s2 & Hq' & Hwrite).
        apply lift_Ok_inv in Hq' as [_ ->].
        apply save_to_Ok_inv in Hwrite as (b & _ & ->).
        simpl. rewrite lookup_insert_eq. eauto.
      - apply bind_Ok_inv in Hwrite as (q & s2 & Hq' & Hwrite).
        apply lift_Ok_inv in Hq' as [_ ->].
        apply save_to_Ok_inv in Hwrite as (b & _ & ->).
        simpl. rewrite lookup_insert_eq. eauto.
      - apply save_to_Ok_inv in Hwrite as (b & _ & ->).
        simpl. rewrite lookup_insert_eq. eauto. }
    destruct Hsome as [b Hd].
    rewrite bool_decide_eq_true_2 in Hs by eauto.
    unfold mbind, M_bind, getsize in Hs. rewrite Hd in Hs.
    injection Hs as <-. simpl. eauto.
Qed.

Lemma save_image_accounting_witness :
  let st' := mkState (<["out/r.webp" := replicate 85 x00]> (disk two_files))
               0 85 [] in
  total_new_size st'
  = total_new_size two_files
    + match disk st' !! "out/r.webp" with
      | Some b => Z.of_nat (length b)
      | None => 0
      end.
Proof.
  refine (proj1 (@save_image_accounting (sized_codec (fun q => q))
                   (plain_os []) (ramp 3 5) "out/r.webp"
                   (plain_settings "webp") two_files _ _)).
  vm_compute. reflexivity.
Defined.


(** X6. A file that is not on the disk makes [process_image] raise at once,
    with the state untouched; and when [process_image] returns, the input
    file was there and the counter of the original sizes has grown by
    exactly its size. *)
Theorem process_image_counts_original `{Pillow} `{OS} (output_dir : string)
    (settings : gmap string value) (file_path : string) (st : state) :
  (disk st !! file_path = None ->
   exists e, process_image output_dir settings file_path st = (Raise e, st)) /\
  (forall st',
     process_image output_dir settings file_path st = (Ok (), st') ->
     exists b, disk st !! file_path = Some b /\
       total_original_size st'
       = total_original_size st + Z.of_nat (length b)).
Proof.
  unfold process_image. split.
  - intros Hd. unfold mbind at 1, M_bind at 1, getsize. rewrite Hd. by eexists.
  - intros st' Hs.
    apply bind_Ok_inv in Hs as (n & s1 & Hsize & Hs).
    unfold getsize in Hsize.
    destruct (disk st !! file_path) as [b|]; [|done].
    injection Hsize as <- <-. exists b. split; [done|].
    apply bind_Ok_inv in Hs as ([] & s1 & Hadd & Hs).
    injection Hadd as <-.
    match type of Hs with
    | ?m ?s = _ =>
        assert (keeps_original_size m) as Hkeep;
          [|specialize (Hkeep s); rewrite Hs in Hkeep; exact Hkeep]
    end.
    repeat first
      [ apply keeps_original_size_bind; [|intros ?]
      | apply keeps_original_size_save_all
      | solve [auto with frame]
      | intros s; unfold Image_open; by destruct (disk s !! file_path) ].
Qed.

Lemma process_image_counts_original_witness :
  exists b, disk two_files !! "b.png" = Some b /\
    total_original_size
      (mkState (<["out/b.png.webp" := replicate 85 x00]> (disk two_files))
         2 85 [])
    = total_original_size two_files + Z.of_nat (length b).
Proof.
  refine (proj2 (@process_image_counts_original (sized_codec (fun q => q))
                   (plain_os []) "out" (plain_settings "webp") "b.png"
                   two_files) _ _).
  vm_compute. reflexivity.
Defined.

(** ** Saving with a target size *)

(** An answer of the trial encode is the length of what the real encode at
    that quality writes. *)
Lemma trial_encode_save `{Pillow} (img : Image) (fmt : string) (q n : Z) :
  trial_encode img fmt q = Some (Ok n) ->
  exists b,
    Z.of_nat (length b) = n /\
    ((is_webp fmt = true /\ save img (WEBP q 6) = Ok b) \/
     (is_webp fmt = false /\ is_jpeg fmt = true /\
      save img (JPEG q true) = Ok b)).
Proof.
  unfold trial_encode.
  destruct (is_webp fmt); [|destruct (is_jpeg fmt); [|done]].
  - destruct (save img (WEBP q 6)) as [b|e]; [|done].
    intros [= <-]. exists b. auto.
  - destruct (save img (JPEG q true)) as [b|e]; [|done].
    intros [= <-]. exists b. auto.
Qed.

(** X7. With a target size set, a format with a quality (webp, jpg, jpeg),
    encoded sizes that grow with the quality and some quality of 1..100 that
    meets the target, [save_image] on a writable path returns, and the file
    it leaves at the output path is at most [target_size_kb * 1024] bytes
    long; the counter of the new sizes grows by its length. *)
Theorem save_image_meets_target `{Pillow} `{OS} (img : Image)
    (output_path : string) (settings : gmap string value) (fmt : string)
    (kb : Z) (sz : Z -> Z) (st : state) :
  settings !! "output_format" = Some (VStr fmt) ->
  settings !! "target_size_kb" = Some (VInt kb) ->
  0 < kb ->
  (forall q, 1 <= q <= 100 ->
     trial_encode img (lower fmt) q = Some (Ok (sz q))) ->
  (forall q q', 1 <= q -> q <= q' -> q' <= 100 -> sz q <= sz q') ->
  (exists q, 1 <= q <= 100 /\ sz q <= kb * 1024) ->
  write_error (disk st) output_path = None ->
  exists b,
    save_image img output_path settings st
    = (Ok (),
       mkState (<[output_path := b]> (disk st)) (total_original_size st)
         (total_new_size st + Z.of_nat (length b)) (emitted st)) /\
    Z.of_nat (length b) <= kb * 1024.
Proof.
  intros Hfmt Hkb Hpos Henc Hmono (q0 & Hq0 & Hfit0) Hwrite.
  destruct (search_loop_converges img (lower fmt) (kb * 1024) sz Henc Hmono
              10 q0 1 100 85 [])
    as (q & Hres & Hq & Hfit & _).
  { unfold search_inv. repeat split; try lia; try done; by left. }
  { simpl. lia. }
  destruct (trial_encode_save img (lower fmt) q (sz q) (Henc q Hq))
    as (b & Hlen & Hsave).
  exists b. split; [|lia].
  unfold save_image, get. rewrite Hfmt, Hkb.
  cbn [as_str as_int fmap Result_fmap].
  unfold mbind, M_bind, lift, mret, M_ret.
  destruct (Z.ltb_spec 0 kb); [|lia].
  unfold find_quality_for_target_size, quality_search. rewrite Hres.
  destruct Hsave as [[-> Hsave]|(-> & -> & Hsave)];
    cbn [as_int]; unfold save_to; rewrite Hwrite, Hsave;
    unfold exists_, getsize; simpl; rewrite lookup_insert_eq; simpl;
    by rewrite lookup_insert_eq.
Qed.

Lemma save_image_meets_target_witness :
  exists b,
    @save_image (sized_codec (fun q => 1024 * q)) (plain_os []) (ramp 4 4)
      "out/r.webp" (<["target_size_kb" := VInt 50]> (plain_settings "webp"))
      two_files
    = (Ok (),
       mkState (<["out/r.webp" := b]> (disk two_files))
         (total_original_size two_files)
         (total_new_size two_files + Z.of_nat (length b))
         (emitted two_files)) /\
    Z.of_nat (length b) <= 50 * 1024.
Proof.
  refine (@save_image_meets_target (sized_codec (fun q => 1024 * q))
            (plain_os []) (ramp 4 4) "out/r.webp"
            (<["target_size_kb" := VInt 50]> (plain_settings "webp"))
            "webp" 50 (fun q => Z.of_nat (Z.to_nat (1024 * q))) two_files
            _ _ _ _ _ _ _).
  - vm_compute. reflexivity.
  - vm_compute. reflexivity.
  - lia.
  - intros q _. apply sized_codec_trial.
  - intros q q' H1 H2 H3. lia.
  - exists 1. lia.
  - reflexivity.
Defined.

(** X8. For a format that is none of webp, jpg, jpeg and png, [save_image]
    raises nothing and writes nothing: it returns with the disk as it
    was. *)
Theorem save_image_unknown_format `{Pillow} `{OS} (img : Image)
    (output_path : string) (settings : gmap string value) (fmt : string)
    (kb : Z) (st : state) :
  settings !! "output_format" = Some (VStr fmt) ->
  is_webp (lower fmt) = false ->
  is_jpeg (lower fmt) = false ->
  lower fmt <> "png" ->
  as_int (get settings "target_size_kb" (VInt 0)) = Ok kb ->
  exists st',
    save_image img output_path settings st = (Ok (), st') /\
    disk st' = disk st.
Proof.
  intros Hfmt Hwebp Hjpeg Hpng Hkb.
  unfold save_image.
  assert (get settings "output_format" (VStr "webp") = VStr fmt) as ->
    by (unfold get; by rewrite Hfmt).
  rewrite Hkb. cbn [as_str fmap Result_fmap].
  unfold mbind, M_bind, lift, mret, M_ret.
  rewrite Hwebp, Hjpeg.
  apply String.eqb_neq in Hpng. rewrite Hpng.
  destruct (0 <? kb); rewrite ?find_quality_other_format by done;
    unfold exists_, getsize;
    destruct (disk st !! output_path) as [b|] eqn:Hd; simpl;
    rewrite ?Hd; by eexists.
Qed.

Lemma save_image_unknown_format_witness :
  exists st',
    @save_image (sized_codec (fun q => q)) (plain_os []) (ramp 3 5)
      "out/r.gif" (plain_settings "gif") two_files = (Ok (), st') /\
    disk st' = disk two_files.
Proof.
  refine (@save_image_unknown_format (sized_codec (fun q => q)) (plain_os [])
            (ramp 3 5) "out/r.gif" (plain_settings "gif") "gif" 0 two_files
            _ _ _ _ _).
  - vm_compute. reflexivity.
  - reflexivity.
  - reflexivity.
  - discriminate.
  - vm_compute. reflexivity.
Defined.

(** ** The signals of a run *)

Section RunSignals.
Context `{Pillow} `{OS}.
Variables (output_dir : string) (settings : gmap string value).

(** The loop emits progress signals only, at most one per file, and one
    per file when it gets through. *)
Lemma process_files_signals (total idx : Z) (files : list string)
    (st : state) :
  exists pcts : list Z,
    emitted (process_files output_dir settings total idx files st).2
    = emitted st ++ (progress <$> pcts) /\
    (length pcts <= length files)%nat /\
    (forall u,
       (process_files output_dir settings total idx files st).1 = Ok u ->
       length pcts = length files).
Proof.
  revert idx st. induction files as [|f files IH]; intros idx st.
  - exists []. simpl. by rewrite app_nil_r.
  - cbn [process_files]. unfold mbind, M_bind.
    pose proof (silent_process_image output_dir settings f st) as Hsilent.
    destruct (process_image output_dir settings f st) as [[[]|e] s1];
      simpl in Hsilent.
    + unfold lift.
      destruct (progress_percent idx total) as [pct|e].
      * unfold emit at 1.
        match goal with
        | |- context [process_files _ _ _ _ _ ?s] =>
            destruct (IH (idx + 1) s) as (pcts & Hem & Hle & Hall)
        end.
        exists (pct :: pcts). split; [|split].
        -- rewrite Hem. cbn [emitted]. by rewrite Hsilent, <- app_assoc.
        -- simpl. lia.
        -- intros u Hu. simpl. by rewrite (Hall u Hu).
      * exists []. simpl. rewrite app_nil_r. repeat split; [done|lia|done].
    + exists []. simpl. rewrite app_nil_r. repeat split; [done|lia|done].
Qed.

End RunSignals.

(** The statistics leave the state alone and say what the counters say. *)
Lemma final_stats_spec (total : Z) (st : state) :
  (final_stats total st).2 = st /\
  forall summary,
    (final_stats total st).1 = Ok summary ->
    total_files summary = total /\
    original_size summary = total_original_size st /\
    new_size summary = total_new_size st /\
    savings summary = original_size summary - new_size summary /\
    (original_size summary <= 0 -> percentage summary = Int 0).
Proof.
  unfold final_stats. split; [done|]. cbn [fst].
  destruct (Z.ltb_spec 0 (total_original_size st)) as [Hpos|Hzero].
  - match goal with
    | |- context [mbind _ ?r] => destruct r as [pct|e]
    end; cbn [mbind Result_bind mret Result_ret]; [|done].
    intros summary [= <-]. cbn. repeat split; try done. lia.
  - cbn [mbind Result_bind mret Result_ret].
    intros summary [= <-]. by cbn.
Qed.

(** X9. A run adds to the signals, in this order: progress signals, at
    most one per file; then either one [error] signal and nothing else, or
    the statistics followed by [finished].  In the second case there is one
    progress signal per file, the statistics carry the number of files and
    the two counters as the run left them, the savings are their
    difference, and the percentage is the integer 0 when nothing was
    read. *)
Theorem run_signal_protocol `{Pillow} `{OS} (files : list string)
    (output_dir : string) (settings : gmap string value) (st : state) :
  exists (pcts : list Z) (tail : list signal),
    emitted (run files output_dir settings st)
    = emitted st ++ (progress <$> pcts) ++ tail /\
    (length pcts <= length files)%nat /\
    ((exists msg, tail = [error msg]) \/
     (exists summary,
        tail = [stats_update summary;
                finished ("Successfully processed "
                          +:+ pretty (Z.of_nat (length files))
                          +:+ " image(s)")] /\
        length pcts = length files /\
        total_files summary = Z.of_nat (length files) /\
        original_size summary
        = total_original_size (run files output_dir settings st) /\
        new_size summary = total_new_size (run files output_dir settings st) /\
        savings summary = original_size summary - new_size summary /\
        (original_size summary <= 0 -> percentage summary = Int 0))).
Proof.
  unfold run, run_body, mbind, M_bind.
  destruct (process_files_signals output_dir settings
              (Z.of_nat (length files)) 0 files st)
    as (pcts & Hem & Hle & Hall).
  destruct (process_files output_dir settings (Z.of_nat (length files)) 0
              files st) as [[[]|e] s1]; cbn [fst snd] in Hem, Hall.
  - destruct (final_stats_spec (Z.of_nat (length files)) s1) as [Hst Hsum].
    destruct (final_stats (Z.of_nat (length files)) s1) as [[summary|e] s2];
      cbn [fst snd] in Hst, Hsum; subst s2.
    + destruct (Hsum summary eq_refl) as (Hn & Horig & Hnew & Hsav & Hpct).
      exists pcts, [stats_update summary;
                    finished ("Successfully processed "
                              +:+ pretty (Z.of_nat (length files))
                              +:+ " image(s)")].
      cbn [emit emitted total_original_size total_new_size fst snd].
      rewrite Hem, <- !app_assoc.
      split; [done|]. split; [done|]. right.
      exists summary. repeat split; try done. by apply (Hall ()).
    + exists pcts, [error ("Error: " +:+ exn_message e)].
      cbn [emit emitted snd]. rewrite Hem, <- app_assoc.
      repeat split; [done|]. left. by eexists.
  - exists pcts, [error ("Error: " +:+ exn_message e)].
    cbn [emit emitted snd]. rewrite Hem, <- app_assoc.
    repeat split; [done|]. left. by eexists.
Qed.

(** ** The place of the watermark *)



(** ** The colour mode after normalisation *)

(** X11. Given that Pillow's [convert] yields the mode it is asked for and
    [paste] keeps the mode of the image pasted onto, and that both keep the
    size, the colour-mode step of [process_image] always hands on an RGB
    image of the size it received; an image that is RGB already is handed
    on as it is. *)
Theorem normalize_mode_rgb `{Pillow} (img : Image) :
  (forall i m, mode (convert i m) = m) ->
  (forall i m, size (convert i m) = size i) ->
  (forall bg i mask, mode (paste bg i mask) = mode bg) ->
  (forall bg i mask, size (paste bg i mask) = size bg) ->
  mode (normalize_mode img) = "RGB" /\
  size (normalize_mode img) = size img /\
  (mode img = "RGB" -> normalize_mode img = img).
Proof.
  intros Hcm Hcs Hpm Hps. unfold normalize_mode.
  destruct (String.eqb_spec (mode img) "RGBA") as [HA|HA];
    [|destruct (String.eqb_spec (mode img) "LA") as [HL|HL];
      [|destruct (String.eqb_spec (mode img) "P") as [HP|HP]]];
    cbn [orb].
  - rewrite Hpm, Hps. repeat split. intros Hrgb. by rewrite Hrgb in HA.
  - rewrite Hpm, Hps. repeat split. intros Hrgb. by rewrite Hrgb in HL.
  - rewrite Hpm, Hps. repeat split. intros Hrgb. by rewrite Hrgb in HP.
  - destruct (String.eqb_spec (mode img) "RGB") as [HR|HR]; cbn [negb].
    + done.
    + by rewrite Hcm, Hcs.
Qed.

Lemma normalize_mode_rgb_witness :
  mode (@normalize_mode (sized_codec (fun q => q))
          (Image_new "RGBA" (3, 2) [0; 0; 0; 0])) = "RGB" /\
  size (@normalize_mode (sized_codec (fun q => q))
          (Image_new "RGBA" (3, 2) [0; 0; 0; 0])) = (3, 2).
Proof.
  destruct (@normalize_mode_rgb (sized_codec (fun q => q))
              (Image_new "RGBA" (3, 2) [0; 0; 0; 0])
              (fun _ _ => eq_refl) (fun _ _ => eq_refl)
              (fun _ _ _ => eq_refl) (fun _ _ _ => eq_refl))
    as (Hmode & Hsize & _).
  by split.
Defined.

(** ** The settings the window hands to the worker *)

Lemma list_getitem_In {A : Type} (lst : list A) (i : Z) (a : A) :
  list_getitem lst i = Ok a -> In a lst.
Proof.
  unfold list_getitem.
  destruct (_ || _); [done|].
  destruct (nth_error lst _) as [x|] eqn:Hx; [|done].
  intros [= <-]. by apply nth_error_In in Hx.
Qed.

(** The index of a list of [n] items is in range from [-n] to [n - 1]. *)
Lemma list_getitem_range {A : Type} (lst : list A) (i : Z) :
  (exists a, list_getitem lst i = Ok a) <->
  - Z.of_nat (length lst) <= i < Z.of_nat (length lst).
Proof.
  unfold list_getitem. cbv zeta. split.
  - intros [a Ha].
    destruct (Z.ltb_spec i 0).
    + destruct (Z.ltb_spec (i + Z.of_nat (length lst)) 0); [done|].
      destruct (Z.leb_spec (Z.of_nat (length lst))
                  (i + Z.of_nat (length lst))); [done|]. lia.
    + destruct (Z.ltb_spec i 0); [lia|].
      destruct (Z.leb_spec (Z.of_nat (length lst)) i); [done|]. lia.
  - intros Hi.
    assert (forall j, 0 <= j < Z.of_nat (length lst) ->
              exists a, nth_error lst (Z.to_nat j) = Some a) as Hnth.
    { intros j Hj. destruct (nth_error lst (Z.to_nat j)) eqn:Hn; [eauto|].
      apply nth_error_None in Hn. lia. }
    destruct (Z.ltb_spec i 0).
    + destruct (Z.ltb_spec (i + Z.of_nat (length lst)) 0); [lia|].
      destruct (Z.leb_spec (Z.of_nat (length lst))
                  (i + Z.of_nat (length lst))); [lia|]. simpl.
      destruct (Hnth (i + Z.of_nat (length lst)) ltac:(lia)) as [a ->].
      eauto.
    + destruct (Z.ltb_spec i 0); [lia|].
      destruct (Z.leb_spec (Z.of_nat (length lst)) i); [lia|]. simpl.
      destruct (Hnth i ltac:(lia)) as [a ->]. eauto.
Qed.

(** The keys [get_settings] always sets, and the preset width when the
    mode is preset. *)
Lemma get_settings_entries (w : Widgets) (s : gmap string value) :
  get_settings w = Ok s ->
  s !! "quality" = Some (VInt (quality_slider w)) /\
  s !! "cut_mode" = Some (VStr (get_cut_mode w)) /\
  s !! "output_format" = Some (VStr (get_output_format w)) /\
  s !! "target_size_kb"
  = Some (VInt (if target_size_check w then target_size_spinbox w else 0)) /\
  s !! "resize_enabled" = Some (VBool (resize_enabled w)) /\
  s !! "watermark_enabled" = Some (VBool (watermark_enabled w)) /\
  (s !! "resize_mode" = Some (VStr "preset") ->
   exists tw, s !! "preset_width" = Some (VInt tw) /\
              In tw [1920; 1200; 800; 400]).
Proof.
  unfold get_settings. intros Hs.
  repeat match type of Hs with
         | context [if ?b then _ else _] => destruct b
         | context [list_getitem ?l ?i] =>
             destruct (list_getitem l i) as [tw|e] eqn:Htw
         end.
  all: cbn [mbind Result_bind mret Result_ret] in Hs; try discriminate.
  all: injection Hs as <-.
  all: split; [by simplify_map_eq|].
  all: split; [by simplify_map_eq|].
  all: split; [by simplify_map_eq|].
  all: split; [by simplify_map_eq|].
  all: split; [by simplify_map_eq|].
  all: split; [by simplify_map_eq|].
  all: intros Hmode; simplify_map_eq.
  all: exists tw; split; [done|]; by apply list_getitem_In in Htw.
Qed.

(** X12. The settings [get_settings] returns carry a cut mode of none,
    horizontal or vertical, an output format of jpg, png or webp (already
    lower case), a target size that is 0 whenever the target box is
    unchecked, and, in preset mode, a preset width of 1920, 1200, 800 or
    400. *)
Theorem get_settings_ranges (w : Widgets) (s : gmap string value) :
  get_settings w = Ok s ->
  (exists c, s !! "cut_mode" = Some (VStr c) /\
             In c ["none"; "horizontal"; "vertical"]) /\
  (exists f, s !! "output_format" = Some (VStr f) /\
             In f ["jpg"; "png"; "webp"] /\ lower f = f) /\
  (exists kb, s !! "target_size_kb" = Some (VInt kb) /\
              (target_size_check w = false -> kb = 0)) /\
  (s !! "resize_mode" = Some (VStr "preset") ->
   exists tw, s !! "preset_width" = Some (VInt tw) /\
              In tw [1920; 1200; 800; 400]).
Proof.
  intros Hs.
  destruct (get_settings_entries w s Hs)
    as (_ & Hcut & Hfmt & Hkb & _ & _ & Hpreset).
  repeat split; [| | |done].
  - exists (get_cut_mode w). split; [done|]. unfold get_cut_mode.
    destruct (radio_horizontal w), (radio_vertical w); simpl; tauto.
  - exists (get_output_format w). split; [done|]. unfold get_output_format.
    destruct (format_jpg w), (format_png w); simpl; tauto.
  - eexists. split; [exact Hkb|]. by intros ->.
Qed.

Lemma get_settings_ranges_witness :
  exists s,
    get_settings (fresh_widgets false "") = Ok s /\
    s !! "cut_mode" = Some (VStr "none") /\
    s !! "output_format" = Some (VStr "webp") /\
    s !! "target_size_kb" = Some (VInt 0).
Proof.
  destruct (get_settings (fresh_widgets false "")) as [s|e] eqn:Hs;
    [|discriminate].
  exists s. split; [done|].
  destruct (get_settings_ranges (fresh_widgets false "") s Hs)
    as (_ & _ & _ & _).
  injection Hs as <-. by vm_compute.
Defined.

(** X13. [get_settings] raises in one case only: resizing is enabled with
    the preset button checked and the index of the preset box is outside
    -4..3, the indices Python accepts for the list of four widths. *)
Theorem get_settings_raises_iff (w : Widgets) :
  (exists e, get_settings w = Raise e) <->
  resize_enabled w = true /\ resize_preset w = true /\
  ~ (-4 <= preset_combo w < 4).
Proof.
  pose proof (list_getitem_range [1920; 1200; 800; 400] (preset_combo w))
    as Hrange.
  unfold get_settings.
  destruct (resize_enabled w); [destruct (resize_preset w)|].
  - destruct (list_getitem [1920; 1200; 800; 400] (preset_combo w))
      as [tw|e]; cbn [mbind Result_bind mret Result_ret].
    + split; [by intros [e [=]]|].
      intros (_ & _ & Hout). exfalso. apply Hout. apply Hrange. eauto.
    + split; [|by eexists].
      intros _. repeat split. intros Hin.
      apply Hrange in Hin as [a [=]].
  - destruct (resize_custom w); cbn [mbind Result_bind mret Result_ret];
      (split; [by intros [e [=]]|by intros (_ & [=] & _)]).
  - cbn [mbind Result_bind mret Result_ret].
    split; [by intros [e [=]]|by intros ([=] & _)].
Qed.

(** ** What the window starts the worker with *)

(** X14. Whenever [process_images] starts the worker, it does so with the
    selected files, which are not empty, with the settings of
    [get_settings] and the output folder the window then holds, and never
    with the watermark enabled on an empty text; no warning is shown
    beside a start.  The output folder is created only when none was
    chosen, and the selected files and the widgets stay as they were. *)
Theorem process_images_guards `{OS} (app app' : App) (actions : list action) :
  process_images app = Ok (app', actions) ->
  (forall f d s, In (start f d s) actions ->
     f = selected_files app /\ f <> [] /\
     get_settings (ui app) = Ok s /\
     d = output_directory app' /\
     (watermark_enabled (ui app) = true -> watermark_text (ui app) <> "") /\
     forall title text, ~ In (warning title text) actions) /\
  (forall p, In (makedirs p) actions ->
     output_directory app = "" /\ p = output_directory app') /\
  selected_files app' = selected_files app /\
  ui app' = ui app.
Proof.
  unfold process_images.
  destruct (selected_files app) as [|first_file rest] eqn:Hfiles.
  { intros [= <- <-]. split; [|split; [|split]]; try done.
    - by intros f d s [[=]|[]].
    - by intros p [[=]|[]]. }
  destruct (get_settings (ui app)) as [s|e] eqn:Hs;
    cbn [mbind Result_bind]; [|done].
  destruct (get_settings_entries _ _ Hs) as (_ & _ & _ & _ & _ & Hflag & _).
  unfold getitem. rewrite Hflag. cbn [mbind Result_bind truthy].
  assert (watermark_enabled (ui app) = true ->
          s !! "watermark_text" = Some (VStr (watermark_text (ui app))))
    as Htext by (intros Hen; by destruct (get_settings_watermark _ _ Hs Hen)).
  destruct (watermark_enabled (ui app));
    [rewrite (Htext eq_refl); cbn [mbind Result_bind mret Result_ret truthy];
     destruct (String.eqb_spec (watermark_text (ui app)) "") as [Hempty|Hfull];
     cbn [negb]|cbn [mret Result_ret]].
  - intros [= <- <-]. split; [|split; [|split]]; try done.
    + by intros f d s0 [[=]|[]].
    + by intros p [[=]|[]].
  - destruct (String.eqb_spec (output_directory app) "") as [Hdir|Hdir];
      intros [= <- <-]; simpl; (split; [|split; [|split]]); try done.
    + intros f d s0 [[=]|[[= <- <- <-]|[]]].
      rewrite ?Hfiles. repeat (split; [done|]).
      by intros title text [[=]|[[=]|[]]].
    + by intros p [[= <-]|[[=]|[]]].
    + intros f d s0 [[= <- <- <-]|[]].
      rewrite ?Hfiles. repeat (split; [done|]).
      by intros title text [[=]|[]].
    + by intros p [[=]|[]].
  - destruct (String.eqb_spec (output_directory app) "") as [Hdir|Hdir];
      intros [= <- <-]; simpl; (split; [|split; [|split]]); try done.
    + intros f d s0 [[=]|[[= <- <- <-]|[]]].
      rewrite ?Hfiles. repeat (split; [done|]).
      by intros title text [[=]|[[=]|[]]].
    + by intros p [[= <-]|[[=]|[]]].
    + intros f d s0 [[= <- <- <-]|[]].
      rewrite ?Hfiles. repeat (split; [done|]).
      by intros title text [[=]|[]].
    + by intros p [[=]|[]].
Qed.

Lemma process_images_guards_witness :
  exists app' actions,
    @process_images (plain_os [])
      (mkApp ["b.png"] "" (fresh_widgets true "me")) = Ok (app', actions) /\
    selected_files app' = ["b.png"] /\
    ui app' = fresh_widgets true "me".
Proof.
  destruct (@process_images (plain_os [])
              (mkApp ["b.png"] "" (fresh_widgets true "me")))
    as [[app' actions]|e] eqn:Hres; [|discriminate].
  exists app', actions. split; [done|].
  by destruct (@process_images_guards (plain_os []) _ _ _ Hres)
    as (_ & _ & Hfiles & Hui).
Defined.

(** ** The list of selected files *)

(** [add_files] is [dropEvent] without the test of the extension. *)
Lemma add_files_dropEvent (selected_files files : list string) :
  add_files selected_files files
  = dropEvent (fun _ => ".png") selected_files files.
Proof.
  revert selected_files. induction files as [|file rest IH];
    intros selected_files; [done|].
  cbn [add_files dropEvent].
  change (bool_decide (lower ".png" ∈ image_extensions)) with true.
  cbn [andb]. rewrite !IH. by destruct (bool_decide (file ∈ selected_files)).
Qed.

Section DropEvent.
Variable suffix : string -> string.

Lemma dropEvent_elem_of (selected_files files : list string) (x : string) :
  x ∈ dropEvent suffix selected_files files <->
  x ∈ selected_files \/
  (x ∈ files /\ lower (suffix x) ∈ image_extensions).
Proof.
  revert selected_files. induction files as [|file rest IH];
    intros selected_files; cbn [dropEvent].
  - split; [by left|]. intros [?|[Hx _]]; [done|]. by apply elem_of_nil in Hx.
  - destruct (bool_decide_reflect (lower (suffix file) ∈ image_extensions))
      as [Hext|Hext];
      destruct (bool_decide_reflect (file ∈ selected_files)) as [Hin|Hin];
      cbn [andb negb];
      rewrite IH, ?elem_of_app, ?list_elem_of_singleton, ?elem_of_cons;
      intuition (subst; tauto).
Qed.

Lemma dropEvent_prefix (selected_files files : list string) :
  exists added, dropEvent suffix selected_files files
                = selected_files ++ added.
Proof.
  revert selected_files. induction files as [|file rest IH];
    intros selected_files; cbn [dropEvent].
  - exists []. by rewrite app_nil_r.
  - destruct (_ && _).
    + destruct (IH (selected_files ++ [file])) as [added ->].
      exists (file :: added). by rewrite <- app_assoc.
    + apply IH.
Qed.

Lemma dropEvent_NoDup (selected_files files : list string) :
  NoDup selected_files -> NoDup (dropEvent suffix selected_files files).
Proof.
  revert selected_files. induction files as [|file rest IH];
    intros selected_files Hnd; cbn [dropEvent]; [done|].
  destruct (bool_decide_reflect (lower (suffix file) ∈ image_extensions));
    destruct (bool_decide_reflect (file ∈ selected_files)) as [Hin|Hin];
    cbn [andb negb]; try by apply IH.
  apply IH. apply NoDup_app. split; [done|]. split.
  - intros x Hx Hx'. apply list_elem_of_singleton in Hx' as ->. done.
  - apply NoDup_singleton.
Qed.

(** Files that are all selected already, or refused, change nothing. *)
Lemma dropEvent_nothing_new (selected_files files : list string) :
  (forall x, x ∈ files ->
     x ∈ selected_files \/ ~ lower (suffix x) ∈ image_extensions) ->
  dropEvent suffix selected_files files = selected_files.
Proof.
  induction files as [|file rest IH]; intros Hall; cbn [dropEvent]; [done|].
  destruct (bool_decide_reflect (lower (suffix file) ∈ image_extensions))
    as [Hext|Hext];
    destruct (bool_decide_reflect (file ∈ selected_files)) as [Hin|Hin];
    cbn [andb negb];
    try (apply IH; intros x Hx; apply Hall; by right).
  destruct (Hall file); [by left|done|done].
Qed.

End DropEvent.

(** X15. Dropping files on the window keeps the files selected before, in
    their order, and appends behind them exactly the dropped files with an
    image extension (compared in lower case) that were not selected yet: a
    file is selected afterwards if and only if it was before or it is a
    dropped file with such an extension; a list without repetitions stays
    without; and dropping the same files a second time changes nothing. *)
Theorem dropEvent_selects (suffix : string -> string)
    (selected_files files : list string) :
  (exists added, dropEvent suffix selected_files files
                 = selected_files ++ added) /\
  (forall x, x ∈ dropEvent suffix selected_files files <->
     x ∈ selected_files \/
     (x ∈ files /\ lower (suffix x) ∈ image_extensions)) /\
  (NoDup selected_files -> NoDup (dropEvent suffix selected_files files)) /\
  dropEvent suffix (dropEvent suffix selected_files files) files
  = dropEvent suffix selected_files files.
Proof.
  split; [apply dropEvent_prefix|]. split; [apply dropEvent_elem_of|].
  split; [apply dropEvent_NoDup|].
  apply dropEvent_nothing_new. intros x Hx.
  destruct (decide (lower (suffix x) ∈ image_extensions)) as [Hext|Hext];
    [left|by right].
  apply dropEvent_elem_of. right. done.
Qed.

(** X16. The file dialog of [add_files] keeps the files selected before,
    in their order, and appends the chosen files that were not selected
    yet, whatever their extension: a file is selected afterwards if and
    only if it was before or was chosen; a list without repetitions stays
    without; and choosing the same files again changes nothing. *)
Theorem add_files_selects (selected_files files : list string) :
  (exists added, add_files selected_files files = selected_files ++ added) /\
  (forall x, x ∈ add_files selected_files files <->
     x ∈ selected_files \/ x ∈ files) /\
  (NoDup selected_files -> NoDup (add_files selected_files files)) /\
  add_files (add_files selected_files files) files
  = add_files selected_files files.
Proof.
  rewrite !add_files_dropEvent.
  split; [apply dropEvent_prefix|]. split; [|split].
  - intros x. rewrite dropEvent_elem_of.
    assert (lower ".png" ∈ image_extensions) by (by vm_compute; left).
    tauto.
  - apply dropEvent_NoDup.
  - apply dropEvent_nothing_new. intros x Hx. left.
    apply dropEvent_elem_of. right. split; [done|].
    by vm_compute; left.
Qed.

(** ** The text of the output path label *)

Lemma length_append (s1 s2 : string) :
  String.length (s1 +:+ s2) = (String.length s1 + String.length s2)%nat.
Proof.
  induction s1 as [|c s1 IH]; [done|]. simpl. by rewrite IH.
Qed.

Lemma length_substring (s : string) (n m : nat) :
  (n + m <= String.length s)%nat ->
  String.length (substring n m s) = m.
Proof.
  revert n m. induction s as [|c s IH]; intros [|n] [|m] Hlen;
    simpl in *; try lia; try done.
  - rewrite IH; lia.
  - apply IH. lia.
  - apply IH. lia.
Qed.

Lemma substring_all (s : string) : substring 0 (String.length s) s = s.
Proof.
  induction s as [|c s IH]; [done|]. simpl. by rewrite IH.
Qed.

Lemma substring_split (s : string) (n : nat) :
  (n <= String.length s)%nat ->
  s = substring 0 n s +:+ substring n (String.length s - n) s.
Proof.
  revert n. induction s as [|c s IH]; intros [|n] Hlen; simpl in *;
    try lia; try done.
  - by rewrite substring_all.
  - change (String c s
            = String c (substring 0 n s
                        +:+ substring n (String.length s - n) s)).
    f_equal. apply IH. lia.
Qed.

(** X17. The text of the output path label is never longer than 50
    characters (of one byte each): a path shorter than 50 is shown as it
    is, and a longer one as three dots followed by its last 47
    characters. *)
Theorem display_path_fits (directory : string) :
  (String.length (display_path directory) <= 50)%nat /\
  ((String.length directory < 50)%nat -> display_path directory = directory) /\
  ((50 <= String.length directory)%nat ->
   exists head tail,
     directory = head +:+ tail /\ String.length tail = 47%nat /\
     display_path directory = "..." +:+ tail).
Proof.
  unfold display_path.
  destruct (Nat.ltb_spec (String.length directory) 50) as [Hshort|Hlong].
  - repeat split; [lia|lia].
  - split; [|split; [lia|]].
    + rewrite length_append, length_substring by lia. simpl. lia.
    + intros _.
      exists (substring 0 (String.length directory - 47) directory),
        (substring (String.length directory - 47) 47 directory).
      split; [|split; [by rewrite length_substring by lia|done]].
      rewrite (substring_split directory (String.length directory - 47))
        at 1 by lia.
      do 2 f_equal. lia.
Qed.

(** ** Cutting with the settings of the window *)

(** X18. With the settings of the window, the cutting step of
    [process_image] on a well-formed image never raises and never comes
    out empty: it hands on the image itself when no cut is chosen, and two
    halves when a horizontal or a vertical cut is. *)
Theorem window_cut_outputs (w : Widgets) (s : gmap string value)
    (img : Image) :
  get_settings w = Ok s ->
  wf_image img ->
  exists outputs,
    cut_image img (get s "cut_mode" (VStr "none")) = Ok outputs /\
    length outputs
    = (if radio_horizontal w || radio_vertical w then 2 else 1)%nat /\
    (radio_horizontal w = false -> radio_vertical w = false ->
     outputs = [("", img)]).
Proof.
  intros Hs wf.
  destruct (get_settings_entries w s Hs) as (_ & Hcut & _).
  unfold get. rewrite Hcut. unfold get_cut_mode.
  destruct (radio_horizontal w); [|destruct (radio_vertical w)].
  - rewrite (cut_image_horizontal img wf). eexists. by repeat split.
  - rewrite (cut_image_vertical img wf). eexists. by repeat split.
  - eexists. by repeat split.
Qed.

Lemma window_cut_outputs_witness :
  exists outputs,
    cut_image (ramp 3 5)
      (get (plain_settings "webp") "cut_mode" (VStr "none")) = Ok outputs /\
    length outputs = 1%nat.
Proof.
  destruct (get_settings (fresh_widgets false "")) as [s|e] eqn:Hs;
    [|discriminate].
  destruct (window_cut_outputs (fresh_widgets false "") s (ramp 3 5) Hs
              ramp_wf) as (outputs & Hcut & Hlen & _).
  exists outputs. split; [|done].
  injection Hs as <-. exact Hcut.
Defined.

(** ** Resizing to custom dimensions *)

(** X19. In custom mode without the aspect maintained, [resize_image]
    gives an image of exactly the requested width and height (each at
    least 1; a missing one is the image's own), in the mode it had.  With
    a resize mode that is none of preset, custom and percentage, as with
    the default of a missing [resize_mode] key, the image is returned as
    it is. *)
Theorem resize_image_custom `{Pillow} (img : Image)
    (settings : gmap string value) :
  (forall w h,
     settings !! "resize_mode" = Some (VStr "custom") ->
     truthy (get settings "maintain_aspect" (VBool true)) = false ->
     as_int (get settings "custom_width" (VInt (width img))) = Ok w ->
     as_int (get settings "custom_height" (VInt (height img))) = Ok h ->
     1 <= w -> 1 <= h ->
     exists img', resize_image img settings = Ok img' /\
                  size img' = (w, h) /\ mode img' = mode img) /\
  (settings !! "resize_mode" = None -> resize_image img settings = Ok img).
Proof.
  unfold resize_image. split.
  - intros w h Hmode Haspect Hw Hh Hw1 Hh1.
    assert (get settings "resize_mode" (VStr "width") = VStr "custom") as ->
      by (unfold get; by rewrite Hmode).
    change (py_eq (VStr "custom") (VStr "preset")) with false.
    change (py_eq (VStr "custom") (VStr "custom")) with true.
    cbv iota. rewrite Hw, Hh, Haspect. cbn [mbind Result_bind].
    unfold resize.
    destruct (Z.eqb_spec w (width img)) as [->|_];
      [destruct (Z.eqb_spec h (height img)) as [->|_]|]; simpl.
    + by exists img.
    + destruct (Z.ltb_spec (width img) 1), (Z.ltb_spec h 1); try lia.
      by eexists.
    + destruct (Z.ltb_spec w 1), (Z.ltb_spec h 1); try lia.
      by eexists.
  - intros Hmode.
    assert (get settings "resize_mode" (VStr "width") = VStr "width") as ->
      by (unfold get; by rewrite Hmode).
    done.
Qed.

Lemma resize_image_custom_witness :
  exists img',
    @resize_image (sized_codec (fun q => q)) (ramp 3 5)
      (<["custom_height" := VInt 10]>
         (<["custom_width" := VInt 6]>
            (<["resize_mode" := VStr "custom"]>
               (<["maintain_aspect" := VBool false]>
                  (plain_settings "webp"))))) = Ok img' /\
    size img' = (6, 10) /\ mode img' = "L".
Proof.
  refine (proj1 (@resize_image_custom (sized_codec (fun q => q)) (ramp 3 5)
                   (<["custom_height" := VInt 10]>
                      (<["custom_width" := VInt 6]>
                         (<["resize_mode" := VStr "custom"]>
                            (<["maintain_aspect" := VBool false]>
                               (plain_settings "webp"))))))
            6 10 _ _ _ _ _ _).
  - vm_compute. reflexivity.
  - vm_compute. reflexivity.
  - vm_compute. reflexivity.
  - vm_compute. reflexivity.
  - lia.
  - lia.
Defined.

(** ** Instances of the frame and selection properties *)

Lemma save_image_touches_only_output_witness :
  disk (@save_image (sized_codec (fun q => q)) (plain_os []) (ramp 3 5)
          "out/r.webp" (plain_settings "webp") two_files).2 !! "a.png"
  = disk two_files !! "a.png".
Proof.
  refine (proj1 (@save_image_touches_only_output (sized_codec (fun q => q))
                   (plain_os []) (ramp 3 5) "out/r.webp"
                   (plain_settings "webp") two_files) "a.png" _).
  discriminate.
Defined.


Lemma dropEvent_selects_witness :
  NoDup (dropEvent (fun p => substring (String.length p - 4) 4 p)
           ["a.png"] ["b.JPG"; "a.png"; "c.txt"]).
Proof.
  refine (proj1 (proj2 (proj2 (dropEvent_selects
                                 (fun p => substring (String.length p - 4) 4 p)
                                 ["a.png"] ["b.JPG"; "a.png"; "c.txt"]))) _).
  apply NoDup_singleton.
Defined.

Lemma add_files_selects_witness :
  NoDup (add_files ["a.png"] ["b.jpg"; "a.png"; "b.jpg"]).
Proof.
  refine (proj1 (proj2 (proj2 (add_files_selects ["a.png"]
                                 ["b.jpg"; "a.png"; "b.jpg"]))) _).
  apply NoDup_singleton.
Defined.

Lemma display_path_fits_witness :
  display_path "/home/user/converted" = "/home/user/converted".
Proof.
  refine (proj1 (proj2 (display_path_fits "/home/user/converted")) _).
  vm_compute. lia.
Defined.

(** ** Files are written, never removed *)

Lemma keeps_files_ret {A : Type} (a : A) : keeps_files (mret a : M A).
Proof. by intros st p. Qed.

Lemma keeps_files_lift {A : Type} (r : Result A) : keeps_files (lift r).
Proof. by intros st p. Qed.

Lemma keeps_files_bind {A B : Type} (m : M A) (f : A -> M B) :
  keeps_files m -> (forall a, keeps_files (f a)) -> keeps_files (m ≫= f).
Proof.
  intros Hm Hf st p Hp. unfold mbind, M_bind.
  specialize (Hm st p Hp). destruct (m st) as [[a|e] st']; simpl in *.
  - by apply Hf.
  - done.
Qed.

Lemma keeps_files_getsize (path : string) : keeps_files (getsize path).
Proof. intros st p Hp. unfold getsize. by destruct (disk st !! path). Qed.

Lemma keeps_files_exists (path : string) : keeps_files (exists_ path).
Proof. by intros st p. Qed.

Lemma keeps_files_add_original_size (n : Z) :
  keeps_files (add_original_size n).
Proof. by intros st p. Qed.

Lemma keeps_files_add_new_size (n : Z) : keeps_files (add_new_size n).
Proof. by intros st p. Qed.

Lemma keeps_files_emit (s : signal) : keeps_files (emit s).
Proof. by intros st p. Qed.

Lemma writes_only_emit (P : string -> Prop) (s : signal) :
  writes_only P (emit s).
Proof. done. Qed.

#[local] Hint Resolve keeps_files_ret keeps_files_lift keeps_files_getsize
  keeps_files_exists keeps_files_add_original_size keeps_files_add_new_size
  keeps_files_emit writes_only_emit : frame.

Section FilesKept.
Context `{Pillow} `{OS}.
Variables (output_dir : string) (settings : gmap string value).

Lemma keeps_files_save_to (img : Image) (path : string)
    (params : save_params) :
  keeps_files (save_to img path params).
Proof.
  intros st p Hp. unfold save_to.
  destruct (write_error (disk st) path); [done|].
  destruct (save img params); [|done].
  simpl. destruct (decide (path = p)) as [->|Hne].
  - rewrite lookup_insert_eq. eauto.
  - by rewrite lookup_insert_ne.
Qed.

Lemma keeps_files_save_image (img : Image) (path : string) :
  keeps_files (save_image img path settings).
Proof.
  unfold save_image.
  repeat first
    [ apply keeps_files_bind; [|intros ?]
    | apply keeps_files_save_to
    | match goal with
      | |- keeps_files (if ?b then _ else _) => destruct b
      end
    | solve [auto with frame] ].
Qed.

Lemma keeps_files_save_all (base_name output_format : string)
    (outputs : list (string * Image)) :
  keeps_files (save_all output_dir base_name output_format settings outputs).
Proof.
  induction outputs as [|[ending img] rest IH]; simpl.
  - auto with frame.
  - apply keeps_files_bind; [apply keeps_files_save_image|done].
Qed.








(** Every output of a [save_all] that returns is on the disk afterwards,
    for the formats that [save_image] writes. *)
Lemma save_all_leaves_outputs (base_name output_format f : string)
    (outputs : list (string * Image)) (st st' : state) :
  lower <$> as_str (get settings "output_format" (VStr "webp")) = Ok f ->
  is_webp f || is_jpeg f || String.eqb f "png" = true ->
  save_all output_dir base_name output_format settings outputs st
  = (Ok (), st') ->
  forall ending, ending ∈ outputs.*1 ->
    is_Some (disk st' !!
               path_join output_dir
                 (base_name +:+ ending +:+ "." +:+ output_format)).
Proof.
  intros Hf Hknown. revert st.
  induction outputs as [|[e img] rest IH]; intros st Hs ending Hin.
  - by apply elem_of_nil in Hin.
  - simpl in Hs. apply bind_Ok_inv in Hs as ([] & s1 & Hsave & Hrest).
    apply elem_of_cons in Hin as [->|Hin]; [|by apply (IH s1)].
    pose proof (keeps_files_save_all base_name output_format rest s1) as Hk.
    rewrite Hrest in Hk. apply Hk. clear Hk Hrest IH.
    set (path := path_join output_dir
                   (base_name +:+ e +:+ "." +:+ output_format)) in *.
    unfold save_image in Hsave.
    apply bind_Ok_inv in Hsave as (f' & s2 & Hf' & Hs).
    apply lift_Ok_inv in Hf' as [Hf' ->].
    rewrite Hf in Hf'. injection Hf' as <-.
    apply bind_Ok_inv in Hs as (kb & s2 & Hkb & Hs).
    apply lift_Ok_inv in Hkb as [_ ->].
    apply bind_Ok_inv in Hs as (quality & s2 & Hq & Hs).
    assert (s2 = st) as ->.
    { destruct (0 <? kb).
      - apply bind_Ok_inv in Hq as (q & s3 & Hq & Hret).
        apply lift_Ok_inv in Hq as [_ ->]. by injection Hret as _ <-.
      - by injection Hq as _ <-. }
    apply bind_Ok_inv in Hs as ([] & s2 & Hwrite & Hs).
    assert (is_Some (disk s2 !! path)) as Hsome.
    { destruct (is_webp f); [|destruct (is_jpeg f);
                                [|destruct (f =? "png")%string; [|done]]].
      - apply bind_Ok_inv in Hwrite as (q & s3 & Hq' & Hwrite).
        apply lift_Ok_inv in Hq' as [_ ->].
        apply save_to_Ok_inv in Hwrite as (b & _ & ->).
        simpl. rewrite lookup_insert_eq. eauto.
      - apply bind_Ok_inv in Hwrite as (q & s3 & Hq' & Hwrite).
        apply lift_Ok_inv in Hq' as [_ ->].
        apply save_to_Ok_inv in Hwrite as (b & _ & ->).
        simpl. rewrite lookup_insert_eq. eauto.
      - apply save_to_Ok_inv in Hwrite as (b & _ & ->).
        simpl. rewrite lookup_insert_eq. eauto. }
    match type of Hs with
    | ?m ?s = _ =>
        assert (keeps_files m) as Hk;
          [|specialize (Hk s path Hsome); by rewrite Hs in Hk]
    end.
    apply keeps_files_bind; [auto with frame|].
    intros []; apply keeps_files_bind || idtac; auto with frame.
Qed.

End FilesKept.

(** The endings of the file names that the cutting step hands on. *)
Lemma cut_image_endings (img : Image) (cut_mode : value)
    (outputs : list (string * Image)) :
  cut_image img cut_mode = Ok outputs ->
  outputs.*1
  = if py_eq cut_mode (VStr "none") then [""]
    else if py_eq cut_mode (VStr "horizontal") then ["_top"; "_bottom"]
    else if py_eq cut_mode (VStr "vertical") then ["_left"; "_right"]
    else [].
Proof.
  unfold cut_image. destruct (py_eq cut_mode (VStr "none")).
  - by intros [= <-].
  - destruct (size img) as [w h].
    destruct (py_eq cut_mode (VStr "horizontal"));
      [|destruct (py_eq cut_mode (VStr "vertical"))].
    + destruct (crop img (0, 0, w, h `div` 2)); [|done].
      destruct (crop img (0, h `div` 2, w, h)); [|done].
      by intros [= <-].
    + destruct (crop img (0, 0, w `div` 2, h)); [|done].
      destruct (crop img (w `div` 2, 0, w, h)); [|done].
      by intros [= <-].
    + by intros [= <-].
Qed.



(** X21. When [process_image] returns and the format is one that
    [save_image] writes (webp, jpg, jpeg, png), its outputs are on the disk
    afterwards, in the output folder, under the name of the input with the
    prefix before and the suffix behind it: one file with the format as
    its extension when no cut is chosen, the two files ending in [_top]
    and [_bottom] for a horizontal cut, and in [_left] and [_right] for a
    vertical one. *)
Theorem process_image_leaves_outputs `{Pillow} `{OS} (output_dir : string)
    (settings : gmap string value) (file_path f : string)
    (st st' : state) :
  process_image output_dir settings file_path st = (Ok (), st') ->
  lower <$> as_str (get settings "output_format" (VStr "webp")) = Ok f ->
  is_webp f || is_jpeg f || String.eqb f "png" = true ->
  let base_name :=
    format_value (get settings "filename_prefix" (VStr ""))
    +:+ stem file_path
    +:+ format_value (get settings "filename_suffix" (VStr "")) in
  let written ending :=
    is_Some (disk st' !!
               path_join output_dir (base_name +:+ ending +:+ "." +:+ f)) in
  let cut_mode := get settings "cut_mode" (VStr "none") in
  (cut_mode = VStr "none" ->
   is_Some (disk st' !! path_join output_dir (base_name +:+ "." +:+ f))) /\
  (cut_mode = VStr "horizontal" -> written "_top" /\ written "_bottom") /\
  (cut_mode = VStr "vertical" -> written "_left" /\ written "_right").
Proof.
  intros Hs Hf Hknown base_name written cut_mode.
  unfold process_image in Hs.
  apply bind_Ok_inv in Hs as (n & s1 & _ & Hs).
  apply bind_Ok_inv in Hs as ([] & s2 & _ & Hs).
  apply bind_Ok_inv in Hs as (img & s3 & _ & Hs).
  apply bind_Ok_inv in Hs as (img1 & s4 & _ & Hs).
  apply bind_Ok_inv in Hs as (img2 & s5 & _ & Hs).
  apply bind_Ok_inv in Hs as (f' & s6 & Hf' & Hs).
  apply lift_Ok_inv in Hf' as [Hf' ->].
  rewrite Hf in Hf'. injection Hf' as <-.
  apply bind_Ok_inv in Hs as (outputs & s7 & Hcut & Hs).
  apply lift_Ok_inv in Hcut as [Hcut ->].
  apply cut_image_endings in Hcut. fold cut_mode in Hcut.
  pose proof (save_all_leaves_outputs output_dir settings base_name f f
                outputs s5 st' Hf Hknown Hs) as Hout.
  rewrite Hcut in Hout. fold base_name in Hout.
  split; [|split]; intros Hmode; rewrite Hmode in Hout.
  - apply (Hout ""). set_solver.
  - split; [apply (Hout "_top")|apply (Hout "_bottom")]; set_solver.
  - split; [apply (Hout "_left")|apply (Hout "_right")]; set_solver.
Qed.

Lemma process_image_leaves_outputs_witness :
  is_Some
    (disk (mkState (<["out/b.png.webp" := replicate 85 x00]> (disk two_files))
             2 85 [])
     !! "out/b.png.webp").
Proof.
  refine (proj1 (@process_image_leaves_outputs (sized_codec (fun q => q))
                   (plain_os []) "out" (plain_settings "webp") "b.png"
                   "webp" two_files _ _ _ _) _).
  - vm_compute. reflexivity.
  - vm_compute. reflexivity.
  - vm_compute. reflexivity.
  - vm_compute. reflexivity.
Defined.
